(** * Ad-paper-script: the paper crawler of [main.py]

    A shallow embedding of class [AAIKnowledgeGraphCrawler] and the
    properties of its title matcher, bibliographic search, open-access
    resolver, source selection, download step and report writer.

    Modelling conventions.
    - A Python [str] is a Rocq [string]; its characters are the 256 code
      points U+0000..U+00FF, classified as CPython classifies them. Text
      with other characters is outside the model.
    - A [set] of strings is a [gset string]; the directory of output files
      is a [gmap] from paths to file contents.
    - The crawler object's mutable state, the files it writes, the requests
      it sends and the lines it prints are threaded through a state and
      exception monad [M]; the servers, the disk and the clock are an
      oracle [env] that answers from the history of events.
    - [time.sleep] has no observable effect and is left out. *)

From Stdlib Require Import Ascii String NArith ZArith QArith Lia.
From stdpp Require Import gmap strings list pretty.

Close Scope Q_scope.
Local Open Scope nat_scope.

(** ** Strings as Python sees them *)

Module Text.

Definition code (c : ascii) : N := N_of_ascii c.

Definition between (lo hi : N) (c : ascii) : bool :=
  ((lo <=? code c) && (code c <=? hi))%N.

(** [str.isspace] per character, which [str.split], [str.strip] and the
    regular expression class [\s] all use: TAB..CR, FS..US, space, NEL and
    the no-break space. *)
Definition is_space (c : ascii) : bool :=
  between 9 13 c || between 28 32 c || between 133 133 c || between 160 160 c.

(** The regular expression class [\w] on [str] patterns: alphanumeric
    characters ([str.isalnum]) and the underscore. *)
Definition is_word (c : ascii) : bool :=
  between 48 57 c || between 65 90 c || between 95 95 c || between 97 122 c
  || between 170 170 c || between 178 179 c || between 181 181 c
  || between 185 186 c || between 188 190 c
  || between 192 214 c || between 216 246 c || between 248 255 c.

(** [str.lower] per character: the upper-case letters A..Z, À..Ö and Ø..Þ
    move up by 32; every other code point stays. *)
Definition lower_char (c : ascii) : ascii :=
  if between 65 90 c || between 192 214 c || between 216 222 c
  then ascii_of_N (code c + 32) else c.

Fixpoint map_chars (f : ascii -> ascii) (s : string) : string :=
  match s with
  | EmptyString => EmptyString
  | String c s' => String (f c) (map_chars f s')
  end.

Fixpoint filter_chars (f : ascii -> bool) (s : string) : string :=
  match s with
  | EmptyString => EmptyString
  | String c s' => if f c then String c (filter_chars f s') else filter_chars f s'
  end.

(** [s.lower()] *)
Definition lower (s : string) : string := map_chars lower_char s.

(** [s[:n]] *)
Fixpoint take (n : nat) (s : string) : string :=
  match n, s with
  | S n', String c s' => String c (take n' s')
  | _, _ => EmptyString
  end.

Fixpoint drop_while (f : ascii -> bool) (s : string) : string :=
  match s with
  | String c s' => if f c then drop_while f s' else s
  | EmptyString => EmptyString
  end.

(** [s.strip()] *)
Definition strip (s : string) : string :=
  String.rev (drop_while is_space (String.rev (drop_while is_space s))).

(** [s.startswith(p)] *)
Fixpoint starts_with (p s : string) : bool :=
  match p, s with
  | EmptyString, _ => true
  | String a p', String b s' => Ascii.eqb a b && starts_with p' s'
  | String _ _, EmptyString => false
  end.

(** [s.endswith(p)] *)
Definition ends_with (p s : string) : bool :=
  starts_with (String.rev p) (String.rev s).

(** [sub in s] *)
Fixpoint contains (sub s : string) : bool :=
  starts_with sub s ||
  match s with
  | EmptyString => false
  | String _ s' => contains sub s'
  end.

(** The token collected so far, most recent character first, closed. *)
Definition flush (tok : list ascii) : list string :=
  match tok with
  | [] => []
  | _ => [string_of_list_ascii (rev tok)]
  end.

Fixpoint split_from (tok : list ascii) (s : string) : list string :=
  match s with
  | EmptyString => flush tok
  | String c s' =>
      if is_space c then flush tok ++ split_from [] s'
      else split_from (c :: tok) s'
  end.

(** [s.split()]: the maximal runs of non-whitespace characters. *)
Definition split (s : string) : list string := split_from [] s.

(** [sep.join(l)] *)
Definition join (sep : string) (l : list string) : string := String.concat sep l.

(** [re.sub(r'[^\w\s]', ' ', s)] *)
Definition punct_to_space (s : string) : string :=
  map_chars (fun c => if is_word c || is_space c then c else " "%char) s.

(** [s.replace(old, new)] for a non-empty [old]: the occurrences of [old]
    are replaced from the left, without overlap. [skip] counts the
    characters of a matched occurrence that are still to be passed over. *)
Fixpoint replace_from (skip : nat) (old new s : string) : string :=
  match s with
  | EmptyString => EmptyString
  | String c s' =>
      match skip with
      | S k => replace_from k old new s'
      | O =>
          if starts_with old s
          then new +:+ replace_from (String.length old - 1) old new s'
          else String c (replace_from 0 old new s')
      end
  end.

Definition replace (old new s : string) : string := replace_from 0 old new s.

(** [bool(s)] of a string: non-empty. *)
Definition truthy (s : string) : bool :=
  match s with EmptyString => false | _ => true end.

End Text.

(** ** The title matcher: [_titles_match] *)

(** The nested function [normalize] of [_titles_match]. *)
Definition normalize (s : string) : string :=
  let s := Text.lower s in
  let s := Text.punct_to_space s in
  Text.join " " (Text.split s).

Definition common_words : gset string :=
  list_to_set ["the"; "a"; "an"; "of"; "in"; "on"; "at"; "to"; "for"; "and";
               "or"; "with"].

(** [num / den > 0.7] for two lengths with [den > 0]. Python divides the
    two integers into the nearest double and compares with the double
    nearest to 7/10; for lengths below 2^52 this agrees with the exact
    comparison of [10 * num] with [7 * den], which is what is modelled. *)
Definition ratio_above_07 (num den : nat) : bool := 7 * den <? 10 * num.

Definition _titles_match (title1 title2 : string) : bool :=
  let t1 := normalize title1 in
  let t2 := normalize title2 in
  if String.eqb t1 t2 then true
  else if Text.contains t1 t2 || Text.contains t2 t1 then true
  else
    let words1 : gset string := list_to_set (Text.split t1) in
    let words2 : gset string := list_to_set (Text.split t2) in
    let words1 := words1 ∖ common_words in
    let words2 := words2 ∖ common_words in
    if (0 <? size words1) && (0 <? size words2)
    then ratio_above_07 (size (words1 ∩ words2)) (min (size words1) (size words2))
    else false.

(** *** The matcher as the specification words it: [titles_match] *)

Definition is_substring (x y : string) : Prop :=
  exists before after : string, y = before +:+ x +:+ after.

(** The normalized, space-split token set without the stop words. *)
Definition content_words (title : string) : gset string :=
  list_to_set (Text.split (normalize title)) ∖ common_words.



(** ** Data of the crawler *)

(** A candidate record: the dict built in [search_dblp]. The fields taken
    from the server without inspection are strings, as DBLP sends them. *)
Record paper := {
  p_title : string;
  p_authors : list string;
  p_year : string;
  p_venue : string;
  p_url : string;
  p_ee : string;
  p_key : string;
  p_doi : string;
  p_source : string
}.

(** An entry of [self.failed_downloads]; ['url'] is not always set. *)
Record failure := {
  f_index : nat;
  f_title : string;
  f_reason : string;
  f_url : option string
}.

(** An exception, with [str(e)]. *)
Inductive exn := Exn (text : string).

Definition str (e : exn) : string := let 'Exn text := e in text.

(** *** What the servers answer *)

(** A JSON value on which the code calls a [str] method: a string, or a
    value of another type (named as Python names it) on which the call
    raises [AttributeError]. *)
Inductive json_text :=
  | JText (s : string)
  | JOther (type_name : string).

(** The shapes of [info['authors']['author']] that [_extract_authors]
    tells apart. An object stands for its ['text'] entry, [""] if unset. *)
Inductive author_json :=
  | AuthorName (s : string)
  | AuthorObject (text : string).

Inductive authors_json :=
  | AuthorsNone
  | AuthorsList (l : list author_json)
  | AuthorsOne (a : author_json).

(** [hit.get('info', {})] with each [info.get(key, default)] taken. *)
Record hit_info := {
  i_title : json_text;
  i_authors : authors_json;
  i_year : string;
  i_venue : json_text;
  i_url : string;
  i_ee : string;
  i_key : string;
  i_doi : string
}.

Inductive dblp_hit :=
  | HitObject (info : hit_info)
  | HitOther (type_name : string).

(** The answer to one DBLP request: [session.get], [raise_for_status],
    [response.json] or the look-up of the keys in the decoded value
    raises, or the list [data['result']['hits']['hit']] is reached (empty
    when one of the keys is not there). *)
Inductive dblp_response :=
  | DblpRaise (e : exn)
  | DblpJson (hits : list dblp_hit).

(** A [link] element of an arXiv entry: [link.get('title')] and
    [link.get('href')]. *)
Record link := {
  l_title : option string;
  l_href : option string
}.

(** An [entry] element: the text of its [title] child if it has one, and
    its [link] children in document order. *)
Record entry := {
  e_title : option string;
  e_links : list link
}.

Inductive arxiv_response :=
  | ArxivRaise (e : exn)
  | ArxivFeed (entries : list entry).

(** The response to the PDF request. [http_error] is what
    [raise_for_status] raises for this response when its status is an
    error status; [body] are the chunks [iter_content] yields and
    [body_error] what it raises after them, if the stream breaks. *)
Record http_response := {
  status_code : nat;
  http_error : exn;
  content_type : string;
  body : list string;
  body_error : option exn
}.

Inductive pdf_response :=
  | PdfRaise (e : exn)
  | PdfResponse (r : http_response).

(** *** Files, events and console lines *)

Inductive file :=
  | Bytes (content : string)
  | MetadataJson (p : paper) (download_source download_url download_date : string)
  | PapersJson (papers : list paper)
  | FailedJson (failed : list failure)
  | ReportText (date : string) (total : nat) (succeeded : Z) (failed : nat)
               (details : list failure).

Inductive event :=
  | EvDblpGet (query : string)
  | EvArxivGet (query : string)
  | EvPdfGet (url : string)
  | EvOpen (path : string).

(** One constructor per [print] (or block of adjacent prints), with the
    values it interpolates. *)
Inductive message :=
  | MsgSearchingDblp (keyword venue : string) (year : Z)
  | MsgFound (title : string) (year : Z)
  | MsgFoundCount (n : nat) (year : Z)
  | MsgDblpError (year : Z) (e : exn)
  | MsgFoundOnArxiv (url : string)
  | MsgArxivError (e : exn)
  | MsgProcessing (index : nat) (title : string)
  | MsgAlreadyDownloaded (filename : string)
  | MsgSearchingArxiv
  | MsgSkippingOjs
  | MsgNoAccessiblePdf
  | MsgDownloadingFrom (source url : string)
  | MsgForbidden
  | MsgNotPdfWarning (content_type : string)
  | MsgDownloaded (filename : string)
  | MsgDownloadError (e : exn)
  | MsgSavedPapers (path : string)
  | MsgSavedFailed (path : string)
  | MsgSavedReport (path : string)
  | MsgBanner (keyword venue : string) (year : Z) (output_dir : string)
  | MsgNoPapers
  | MsgTotalFound (n : nat)
  | MsgStartDownload
  | MsgProgress (i total downloaded failed : nat)
  | MsgComplete (downloaded total : nat) (output_dir : string)
  | MsgFailedSummary (failed : nat).

(** The servers, the disk and the clock. Each answer may depend on the
    events so far. [open_error] is the exception [open(path, 'w')] raises,
    if it does. *)
Record env := {
  dblp_server : list event -> string -> dblp_response;
  arxiv_server : list event -> string -> arxiv_response;
  pdf_server : list event -> string -> pdf_response;
  open_error : list event -> string -> option exn;
  clock : list event -> string
}.

(** The output directory, [self.failed_downloads], and what the process
    has sent and printed. *)
Record world := {
  files : gmap string file;
  failed_downloads : list failure;
  events : list event;
  stdout : list message
}.

(** ** The monad of crawler code *)

Inductive result (A : Type) :=
  | Ok (a : A)
  | Raise (e : exn).
Arguments Ok {A} a.
Arguments Raise {A} e.

Definition M (A : Type) : Type := world -> result A * world.

Definition ret {A} (a : A) : M A := fun w => (Ok a, w).

Definition bind {A B} (m : M A) (k : A -> M B) : M B :=
  fun w =>
    match m w with
    | (Ok a, w') => k a w'
    | (Raise e, w') => (Raise e, w')
    end.

Definition raise {A} (e : exn) : M A := fun w => (Raise e, w).

(** [try: body / except Exception as e: handler] *)
Definition try_except {A} (body : M A) (handler : exn -> M A) : M A :=
  fun w =>
    match body w with
    | (Ok a, w') => (Ok a, w')
    | (Raise e, w') => handler e w'
    end.

Declare Scope crawler_scope.
Delimit Scope crawler_scope with crawler.
Bind Scope crawler_scope with M.

Notation "x <- m ;; k" := (bind m (fun x => k))
  (at level 100, m at next level, right associativity) : crawler_scope.
Notation "m ;; k" := (bind m (fun _ => k))
  (at level 100, right associativity) : crawler_scope.

Local Open Scope crawler_scope.

Definition print (m : message) : M unit :=
  fun w => (Ok tt, {| files := files w; failed_downloads := failed_downloads w;
                      events := events w; stdout := stdout w ++ [m] |}).

Definition emit (e : event) (w : world) : world :=
  {| files := files w; failed_downloads := failed_downloads w;
     events := events w ++ [e]; stdout := stdout w |}.

Definition put_file (path : string) (f : file) : M unit :=
  fun w => (Ok tt, {| files := <[path := f]> (files w);
                      failed_downloads := failed_downloads w;
                      events := events w; stdout := stdout w |}).

(** [self.failed_downloads.append(f)] *)
Definition append_failure (f : failure) : M unit :=
  fun w => (Ok tt, {| files := files w;
                      failed_downloads := failed_downloads w ++ [f];
                      events := events w; stdout := stdout w |}).

Definition get_failed : M (list failure) := fun w => (Ok (failed_downloads w), w).

(** [os.path.exists(path)] *)
Definition path_exists (path : string) : M bool :=
  fun w => (Ok (bool_decide (is_Some (files w !! path))), w).

(** ** The crawler: [AAIKnowledgeGraphCrawler] *)

Section Crawler.

Variable E : env.
Variable output_dir : string.

(** [os.path.join(self.output_dir, name)] for a relative [name]. *)
Definition path_join (name : string) : string :=
  if negb (Text.truthy output_dir) then name
  else if Text.ends_with "/" output_dir then output_dir +:+ name
  else output_dir +:+ "/" +:+ name.

(** [open(path, mode)] for writing: raises, or leaves an empty file. *)
Definition open_write (path : string) : M unit :=
  fun w =>
    match open_error E (events w) path with
    | Some e => (Raise e, emit (EvOpen path) w)
    | None => put_file path (Bytes "") (emit (EvOpen path) w)
    end.

(** [f.write(chunk)] on a file opened with ['wb']. *)
Definition write_chunk (path chunk : string) : M unit :=
  fun w =>
    match files w !! path with
    | Some (Bytes content) => put_file path (Bytes (content +:+ chunk)) w
    | _ => put_file path (Bytes chunk) w
    end.

(** [datetime.now()], formatted. *)
Definition now : M string := fun w => (Ok (clock E (events w)), w).

(** *** [search_dblp] *)

(** Lines 55 to 61: the request, and the hits of the decoded answer. *)
Definition dblp_get (query : string) : M (list dblp_hit) :=
  fun w =>
    match dblp_server E (events w) query with
    | DblpRaise e => (Raise e, emit (EvDblpGet query) w)
    | DblpJson hits => (Ok hits, emit (EvDblpGet query) w)
    end.

Definition author_text (a : author_json) : string :=
  match a with
  | AuthorName s => s
  | AuthorObject text => text
  end.

Definition _extract_authors (authors_data : authors_json) : list string :=
  match authors_data with
  | AuthorsList l => map author_text l
  | AuthorsOne a => [author_text a]
  | AuthorsNone => []
  end.

(** A call of [.lower()] on a JSON value. *)
Definition lower_of (v : json_text) : M string :=
  match v with
  | JText s => ret (Text.lower s)
  | JOther type_name =>
      raise (Exn ("'" +:+ type_name +:+ "' object has no attribute 'lower'"))
  end.

Definition text_of (v : json_text) : string :=
  match v with
  | JText s => s
  | JOther _ => ""
  end.

(** The dict of lines 69 to 79. *)
Definition record_of (info : hit_info) : paper :=
  {| p_title := text_of (i_title info);
     p_authors := _extract_authors (i_authors info);
     p_year := i_year info;
     p_venue := text_of (i_venue info);
     p_url := i_url info;
     p_ee := i_ee info;
     p_key := i_key info;
     p_doi := i_doi info;
     p_source := "DBLP" |}.

(** The body of [for hit in hits] (lines 64 to 84), with the list
    [papers] as it is after the iteration. *)
Definition hit_step (keyword venue : string) (search_year : Z)
    (hit : dblp_hit) (papers : list paper) : M (list paper) :=
  info <- match hit with
          | HitObject info => ret info
          | HitOther type_name =>
              raise (Exn ("'" +:+ type_name +:+ "' object has no attribute 'get'"))
          end;;
  title_lower <- lower_of (i_title info);;
  if Text.contains (Text.lower keyword) title_lower then
    let p := record_of info in
    venue_lower <- lower_of (i_venue info);;
    if Text.contains (Text.lower venue) venue_lower then
      print (MsgFound (p_title p) search_year);;
      ret (papers ++ [p])
    else ret papers
  else ret papers.

(** The loop over the hits. [papers] is a local list of [search_dblp]
    that outlives an exception: the loop stops at the first iteration
    that raises and hands back the list as it was then, with the
    exception. *)
Fixpoint for_hits (keyword venue : string) (search_year : Z)
    (hits : list dblp_hit) (papers : list paper) : M (list paper * option exn) :=
  match hits with
  | [] => ret (papers, None)
  | hit :: rest =>
      fun w =>
        match hit_step keyword venue search_year hit papers w with
        | (Ok papers', w') => for_hits keyword venue search_year rest papers' w'
        | (Raise e, w') => (Ok (papers, Some e), w')
        end
  end.

Definition dblp_query (keyword venue : string) (search_year : Z) : string :=
  keyword +:+ " venue:" +:+ venue +:+ " year:" +:+ pretty search_year.

(** [len([p for p in papers if p['year'] == str(search_year)])] *)
Definition count_year (papers : list paper) (search_year : Z) : nat :=
  length (filter (fun p => p_year p = pretty search_year) papers).

(** One iteration of [for search_year in years_to_search]: the [try]
    block of lines 53 to 86 and its handler. *)
Definition search_year_step (keyword venue : string) (search_year : Z)
    (papers : list paper) : M (list paper) :=
  print (MsgSearchingDblp keyword venue search_year);;
  try_except
    (hits <- dblp_get (dblp_query keyword venue search_year);;
     r <- for_hits keyword venue search_year hits papers;;
     match r with
     | (papers', None) =>
         print (MsgFoundCount (count_year papers' search_year) search_year);;
         ret papers'
     | (papers', Some e) =>
         print (MsgDblpError search_year e);;
         ret papers'
     end)
    (fun e => print (MsgDblpError search_year e);; ret papers).

Definition search_dblp (keyword venue : string) (year : Z) : M (list paper) :=
  papers <- search_year_step keyword venue year [];;
  search_year_step keyword venue (year - 1) papers.

(** *** [search_arxiv_for_paper] *)

Definition double_quote : string := String (ascii_of_nat 34) "".

(** Lines 133 to 138: the request, and the entries of the parsed feed. *)
Definition arxiv_get (query : string) : M (list entry) :=
  fun w =>
    match arxiv_server E (events w) query with
    | ArxivRaise e => (Raise e, emit (EvArxivGet query) w)
    | ArxivFeed entries => (Ok entries, emit (EvArxivGet query) w)
    end.

(** [for link in links] (lines 147 to 155): [Some url] is the [return]
    of line 155, [None] the end of the loop. *)
Fixpoint for_links (links : list link) : M (option string) :=
  match links with
  | [] => ret None
  | l :: rest =>
      if bool_decide (l_title l = Some "pdf") then
        match l_href l with
        | None => raise (Exn "argument of type 'NoneType' is not iterable")
        | Some href =>
            let pdf_url :=
              if negb (Text.contains "/pdf/" href)
              then Text.replace "/abs/" "/pdf/" href +:+ ".pdf"
              else href in
            print (MsgFoundOnArxiv pdf_url);;
            ret (Some pdf_url)
        end
      else for_links rest
  end.

(** [for entry in entries] (lines 140 to 155). *)
Fixpoint for_entries (title : string) (entries : list entry) : M (option string) :=
  match entries with
  | [] => ret None
  | e :: rest =>
      arxiv_title <- match e_title e with
                     | Some t => ret (Text.strip t)
                     | None => raise (Exn "'NoneType' object has no attribute 'text'")
                     end;;
      if _titles_match title arxiv_title then
        found <- for_links (e_links e);;
        match found with
        | Some pdf_url => ret (Some pdf_url)
        | None => for_entries title rest
        end
      else for_entries title rest
  end.

(** [for query in search_queries] (lines 126 to 157). *)
Fixpoint for_queries (title : string) (search_queries : list string) : M (option string) :=
  match search_queries with
  | [] => ret None
  | query :: rest =>
      entries <- arxiv_get query;;
      found <- for_entries title entries;;
      match found with
      | Some pdf_url => ret (Some pdf_url)
      | None => for_queries title rest
      end
  end.

(** Lines 109 to 124. [authors[0].split()[-1]] raises on an author
    without a word. *)
Definition search_queries (title : string) (authors : list string) : M (list string) :=
  let search_title := Text.punct_to_space title in
  let search_title := Text.take 100 (Text.join " " (Text.split search_title)) in
  let queries := ["ti:" +:+ double_quote +:+ search_title +:+ double_quote;
                  "ti:" +:+ search_title] in
  match authors with
  | [] => ret queries
  | first :: _ =>
      match last (Text.split first) with
      | None => raise (Exn "list index out of range")
      | Some first_author =>
          ret (queries ++ ["ti:" +:+ search_title +:+ " AND au:" +:+ first_author])
      end
  end.

Definition search_arxiv_for_paper (title : string) (authors : list string)
    : M (option string) :=
  try_except
    (queries <- search_queries title authors;;
     for_queries title queries)
    (fun e => print (MsgArxivError e);; ret None).

(** *** [download_paper] *)

(** [f"{index:03d}"] *)
Definition format_03d (index : nat) : string :=
  let digits := pretty index in
  String.concat "" (replicate (3 - String.length digits) "0") +:+ digits.

Definition is_hyphen (c : ascii) : bool := Ascii.eqb c "-"%char.

(** [re.sub(r'[-\s]+', '-', s)]; [in_run] tells that the character before
    was a hyphen or whitespace, already replaced. *)
Fixpoint hyphenate (in_run : bool) (s : string) : string :=
  match s with
  | EmptyString => EmptyString
  | String c s' =>
      if is_hyphen c || Text.is_space c
      then (if in_run then hyphenate true s' else String "-"%char (hyphenate true s'))
      else String c (hyphenate false s')
  end.

(** Lines 204 to 206. *)
Definition pdf_filename (title : string) (index : nat) : string :=
  let safe_title :=
    Text.take 80
      (Text.filter_chars
         (fun c => Text.is_word c || Text.is_space c || is_hyphen c) title) in
  let safe_title := hyphenate false safe_title in
  format_03d index +:+ "_" +:+ safe_title +:+ ".pdf".

Definition pdf_path (title : string) (index : nat) : string :=
  path_join (pdf_filename title index).

Definition metadata_path (index : nat) : string :=
  path_join (format_03d index +:+ "_metadata.json").

(** What lines 215 to 236 leave in [pdf_url] and [source]. *)
Inductive selection :=
  | Chosen (pdf_url source : string)
  | SkippedOjs
  | NoSource.

(** Lines 226 to 236: the link of the DBLP record, [paper.get('ee')]. *)
Definition select_from_ee (ee : string) : selection :=
  if Text.truthy ee then
    if Text.ends_with ".pdf" ee || Text.contains "arxiv.org/pdf" ee
    then Chosen ee "DBLP direct link"
    else if Text.contains "ojs.aaai.org" ee || Text.contains "doi.org/10.1609" ee
    then SkippedOjs
    else Chosen ee "DBLP EE link"
  else NoSource.

Definition select_source (arxiv_url : option string) (ee : string) : selection :=
  match arxiv_url with
  | Some url =>
      if Text.truthy url then Chosen url "arXiv"
      else select_from_ee ee
  | None => select_from_ee ee
  end.

(** [self.session.get(pdf_url, stream=True, timeout=30, allow_redirects=True)] *)
Definition pdf_get (pdf_url : string) : M http_response :=
  fun w =>
    match pdf_server E (events w) pdf_url with
    | PdfRaise e => (Raise e, emit (EvPdfGet pdf_url) w)
    | PdfResponse r => (Ok r, emit (EvPdfGet pdf_url) w)
    end.

(** [response.raise_for_status()] of the requests library. *)
Definition raise_for_status (response : http_response) : M unit :=
  if (400 <=? status_code response) && (status_code response <? 600)
  then raise (http_error response)
  else ret tt.

(** Lines 273 and 274. *)
Fixpoint for_chunks (path : string) (chunks : list string) : M unit :=
  match chunks with
  | [] => ret tt
  | chunk :: rest => write_chunk path chunk;; for_chunks path rest
  end.

(** Lines 264 to 291: the response is written to the disk. *)
Definition store_response (paper : paper) (index : nat)
    (pdf_url source : string) (response : http_response) : M bool :=
  let filename := pdf_filename (p_title paper) index in
  let filepath := pdf_path (p_title paper) index in
  raise_for_status response;;
  (if negb (Text.contains "pdf" (Text.lower (content_type response)))
      && negb (Text.ends_with ".pdf" pdf_url)
   then print (MsgNotPdfWarning (content_type response))
   else ret tt);;
  open_write filepath;;
  for_chunks filepath (body response);;
  match body_error response with
  | Some e => raise e
  | None => ret tt
  end;;
  print (MsgDownloaded filename);;
  download_date <- now;;
  open_write (metadata_path index);;
  put_file (metadata_path index) (MetadataJson paper source pdf_url download_date);;
  ret true.

(** Lines 249 to 291: the body of the [try]. *)
Definition fetch_and_store (paper : paper) (index : nat)
    (pdf_url source : string) : M bool :=
  print (MsgDownloadingFrom source pdf_url);;
  response <- pdf_get pdf_url;;
  if status_code response =? 403 then
    print MsgForbidden;;
    append_failure {| f_index := index; f_title := p_title paper;
                      f_reason := "403 Forbidden from " +:+ source;
                      f_url := Some pdf_url |};;
    ret false
  else store_response paper index pdf_url source response.

Definition download_paper (paper : paper) (index : nat) : M bool :=
  print (MsgProcessing index (p_title paper));;
  let filename := pdf_filename (p_title paper) index in
  let filepath := pdf_path (p_title paper) index in
  already <- path_exists filepath;;
  if (already : bool) then
    print (MsgAlreadyDownloaded filename);;
    ret true
  else
    print MsgSearchingArxiv;;
    arxiv_url <- search_arxiv_for_paper (p_title paper) (p_authors paper);;
    let sel := select_source arxiv_url (p_ee paper) in
    match sel with SkippedOjs => print MsgSkippingOjs | _ => ret tt end;;
    match sel with
    | Chosen pdf_url source =>
        try_except
          (fetch_and_store paper index pdf_url source)
          (fun e =>
             print (MsgDownloadError e);;
             append_failure {| f_index := index; f_title := p_title paper;
                               f_reason := str e; f_url := Some pdf_url |};;
             ret false)
    | _ =>
        print MsgNoAccessiblePdf;;
        append_failure {| f_index := index; f_title := p_title paper;
                          f_reason := "No accessible PDF URL found";
                          f_url := None |};;
        ret false
    end.

(** *** [save_results] *)

Definition papers_path : string := path_join "all_papers.json".
Definition failed_path : string := path_join "failed_downloads.json".
Definition report_path : string := path_join "download_report.txt".

Definition nonempty {A} (l : list A) : bool :=
  match l with [] => false | _ => true end.

Definition save_results (papers : list paper) : M unit :=
  open_write papers_path;;
  put_file papers_path (PapersJson papers);;
  print (MsgSavedPapers papers_path);;
  failed <- get_failed;;
  if nonempty failed then
    open_write failed_path;;
    put_file failed_path (FailedJson failed);;
    print (MsgSavedFailed failed_path);;
    open_write report_path;;
    date <- now;;
    put_file report_path
      (ReportText date (length papers)
         (Z.of_nat (length papers) - Z.of_nat (length failed))
         (length failed)
         (if nonempty failed then failed else []));;
    print (MsgSavedReport report_path)
  else ret tt.

(** *** [run] *)

(** Lines 362 to 367: [for i, paper in enumerate(papers, 1)], from the
    pair [(i, paper)] on, with [success_count] as it is so far. *)
Fixpoint for_papers (total i : nat) (papers : list paper) (success_count : nat) : M nat :=
  match papers with
  | [] => ret success_count
  | paper :: rest =>
      ok <- download_paper paper i;;
      let success_count := if (ok : bool) then success_count + 1 else success_count in
      failed <- get_failed;;
      print (MsgProgress i total success_count (length failed));;
      for_papers total (S i) rest success_count
  end.

Definition run (keyword venue : string) (year : Z) : M unit :=
  print (MsgBanner keyword venue year output_dir);;
  papers <- search_dblp keyword venue year;;
  if negb (nonempty papers) then
    print MsgNoPapers;;
    ret tt
  else
    print (MsgTotalFound (length papers));;
    print MsgStartDownload;;
    success_count <- for_papers (length papers) 1 papers 0;;
    save_results papers;;
    print (MsgComplete success_count (length papers) output_dir);;
    failed <- get_failed;;
    if nonempty failed then print (MsgFailedSummary (length failed))
    else ret tt.

End Crawler.

(** [AAIKnowledgeGraphCrawler(output_dir)]: the state of a new crawler
    in a process that has sent and printed nothing, over the files that
    are in the output directory. *)
Definition init (existing : gmap string file) : world :=
  {| files := existing; failed_downloads := []; events := []; stdout := [] |}.

(** ** Predicates of the statements *)

(** *** Source selection *)

Definition is_suffix (p s : string) : Prop := exists front, s = front +:+ p.

(** The embedded link looks like a direct pointer to the PDF. *)
Definition direct_pdf_link (ee : string) : Prop :=
  is_suffix ".pdf" ee \/ is_substring "arxiv.org/pdf" ee.

(** The embedded link points to the proceedings host or to a DOI of the
    venue. *)
Definition paywalled_link (ee : string) : Prop :=
  is_substring "ojs.aaai.org" ee \/ is_substring "doi.org/10.1609" ee.

(** *** The resolver *)

(** A computation that changes nothing but the console and the list of
    events, to which it adds requests to arXiv only. *)
Definition arxiv_only {A} (m : M A) : Prop :=
  forall w r w', m w = (r, w') ->
    files w' = files w /\ failed_downloads w' = failed_downloads w
    /\ exists queries, events w' = events w ++ map EvArxivGet queries.




(** *** The bibliographic search *)

(** [needle] occurs in [s], letter case aside. *)
Definition mentions (needle s : string) : Prop :=
  is_substring (Text.lower needle) (Text.lower s).

(** A hit whose title and venue are strings. *)
Definition textual (info : hit_info) : Prop :=
  exists t v, i_title info = JText t /\ i_venue info = JText v.

(** The filter of [search_dblp] as the specification words it. *)
Definition kept (keyword venue : string) (info : hit_info) : Prop :=
  mentions keyword (text_of (i_title info))
  /\ mentions venue (text_of (i_venue info)).

Definition keeps (keyword venue : string) (info : hit_info) : bool :=
  Text.contains (Text.lower keyword) (Text.lower (text_of (i_title info)))
  && Text.contains (Text.lower venue) (Text.lower (text_of (i_venue info))).

(** The records of the hits that pass the filter, in the order of the
    answer. *)
Definition filtered_records (keyword venue : string) (infos : list hit_info)
    : list paper :=
  map record_of (List.filter (keeps keyword venue) infos).

(** The record passes the filter of [search_dblp]. *)
Definition relevant (keyword venue : string) (p : paper) : Prop :=
  mentions keyword (p_title p) /\ mentions venue (p_venue p).

(** A computation that sends nothing and writes nothing: it only prints. *)
Definition prints_only (w w' : world) : Prop :=
  files w' = files w /\ failed_downloads w' = failed_downloads w
  /\ events w' = events w /\ exists out, stdout w' = stdout w ++ out.

(** What one year's request adds to [papers], by the answer of the
    server: nothing if the request raises; the filtered records of the
    hits if all are well formed; the filtered records of the hits before
    the first one that is not an object, otherwise. [out] are the lines
    printed meanwhile. *)
Definition year_outcome (keyword venue : string) (search_year : Z)
    (answer : dblp_response) (papers papers' : list paper)
    (out : list message) : Prop :=
  match answer with
  | DblpRaise e => papers' = papers /\ MsgDblpError search_year e ∈ out
  | DblpJson hits =>
      (forall infos, hits = HitObject <$> infos -> Forall textual infos ->
         papers' = papers ++ filtered_records keyword venue infos)
      /\ (forall infos type_name rest,
            hits = (HitObject <$> infos) ++ HitOther type_name :: rest ->
            Forall textual infos ->
            papers' = papers ++ filtered_records keyword venue infos
            /\ exists e, MsgDblpError search_year e ∈ out)
  end.

(** *** The download step *)

Definition is_pdf_get (e : event) : bool :=
  match e with EvPdfGet _ => true | _ => false end.

(** The number of PDF requests among the events. *)
Definition pdf_gets (evs : list event) : nat :=
  length (List.filter is_pdf_get evs).

(** A step that records no failure, sends no PDF request and removes no
    file. *)
Definition quiet (w w' : world) : Prop :=
  failed_downloads w' = failed_downloads w
  /\ pdf_gets (events w') = pdf_gets (events w)
  /\ forall path, is_Some (files w !! path) -> is_Some (files w' !! path).

Definition quietly {A} (m : M A) : Prop :=
  forall w r w', m w = (r, w') -> quiet w w'.

(** A computation that, when it returns, returns [True]. *)
Definition returns_true (m : M bool) : Prop :=
  forall w b w', m w = (Ok b, w') -> b = true.

(** A computation that, when it returns, leaves a file at [path]. *)
Definition leaves {A} (path : string) (m : M A) : Prop :=
  forall w a w', m w = (Ok a, w') -> is_Some (files w' !! path).

(** ** Scenarios

    Servers and candidates for the examples below. *)

Module Scenario.

Definition kgc_info : hit_info :=
  {| i_title := JText "Knowledge Graph Completion";
     i_authors := AuthorsList [AuthorObject "Ann Lee"; AuthorName "Bo Chen"];
     i_year := "2025"; i_venue := JText "AAAI";
     i_url := "https://dblp.org/rec/conf/aaai/Lee25";
     i_ee := "https://example.org/kgc.pdf";
     i_key := "conf/aaai/Lee25"; i_doi := "" |}.

Definition kge_info : hit_info :=
  {| i_title := JText "Knowledge Graph Embedding";
     i_authors := AuthorsOne (AuthorObject "Cy Diaz");
     i_year := "2024"; i_venue := JText "AAAI";
     i_url := "https://dblp.org/rec/conf/aaai/Diaz24";
     i_ee := "https://doi.org/10.1609/aaai.v38i1.1";
     i_key := "conf/aaai/Diaz24"; i_doi := "10.1609/aaai.v38i1.1" |}.

(** A hit of another venue, and one on another subject. *)
Definition other_venue_info : hit_info :=
  {| i_title := JText "Temporal Knowledge Graph Reasoning";
     i_authors := AuthorsNone;
     i_year := "2025"; i_venue := JText "IJCAI";
     i_url := ""; i_ee := ""; i_key := ""; i_doi := "" |}.

Definition other_subject_info : hit_info :=
  {| i_title := JText "Graph Neural Networks";
     i_authors := AuthorsNone;
     i_year := "2024"; i_venue := JText "AAAI";
     i_url := ""; i_ee := ""; i_key := ""; i_doi := "" |}.

Definition kgc : paper := record_of kgc_info.
Definition kge : paper := record_of kge_info.

Definition keyword : string := "knowledge graph".
Definition venue : string := "AAAI".

Definition query_2025 : string := "knowledge graph venue:AAAI year:2025".

Definition pdf_complete : pdf_response :=
  PdfResponse {| status_code := 200; http_error := Exn "";
                 content_type := "application/pdf";
                 body := ["%PDF-1.4 first chunk,"; " last chunk"];
                 body_error := None |}.

(** The connection breaks after the first chunk. *)
Definition pdf_broken : pdf_response :=
  PdfResponse {| status_code := 200; http_error := Exn "";
                 content_type := "application/pdf";
                 body := ["%PDF-1.4 first chunk,"];
                 body_error := Some (Exn "Connection broken: IncompleteRead") |}.

Definition make_env (dblp : string -> dblp_response)
    (arxiv : string -> arxiv_response) (pdf : pdf_response) : env :=
  {| dblp_server := fun _ query => dblp query;
     arxiv_server := fun _ query => arxiv query;
     pdf_server := fun _ _ => pdf;
     open_error := fun _ _ => None;
     clock := fun _ => "2025-01-01T00:00:00" |}.

Definition no_arxiv (query : string) : arxiv_response := ArxivFeed [].

(** Both years answer with well-formed hits. *)
Definition dblp_both (query : string) : dblp_response :=
  if String.eqb query query_2025
  then DblpJson (HitObject <$> [kgc_info; other_venue_info])
  else DblpJson (HitObject <$> [other_subject_info; kge_info]).



Definition dblp_nothing (query : string) : dblp_response := DblpJson [].

(** One candidate, found in the target year. *)
Definition dblp_one (query : string) : dblp_response :=
  if String.eqb query query_2025
  then DblpJson (HitObject <$> [kgc_info])
  else DblpJson [].

Definition abs_link : link :=
  {| l_title := None; l_href := Some "http://arxiv.org/abs/2401.00001v1" |}.

Definition pdf_link : link :=
  {| l_title := Some "pdf"; l_href := Some "http://arxiv.org/abs/2401.00001v1" |}.

(** A result with the title looked for and no PDF-typed link. *)
Definition entry_without_pdf : entry :=
  {| e_title := Some "Knowledge Graph Completion"; e_links := [abs_link] |}.

Definition entry_with_pdf : entry :=
  {| e_title := Some "  Knowledge graph completion "; e_links := [abs_link; pdf_link] |}.


Definition arxiv_with_pdf (query : string) : arxiv_response :=
  ArxivFeed [entry_without_pdf; entry_with_pdf].

Definition env_ok : env := make_env dblp_both no_arxiv pdf_complete.
Definition env_broken : env := make_env dblp_both no_arxiv pdf_broken.
Definition env_nothing : env := make_env dblp_nothing no_arxiv pdf_complete.
Definition env_one : env := make_env dblp_one no_arxiv pdf_complete.
Definition env_arxiv_with_pdf : env :=
  make_env dblp_both arxiv_with_pdf pdf_complete.

End Scenario.

(** * Properties *)

(** ** Strings *)

Lemma app_cons (c : ascii) (a b : string) :
  String c a +:+ b = String c (a +:+ b).
Proof. reflexivity. Qed.

Lemma app_nil_l (b : string) : "" +:+ b = b.
Proof. reflexivity. Qed.

Lemma starts_with_spec (p s : string) :
  Text.starts_with p s = true <-> exists rest, s = p +:+ rest.
Proof.
  revert s. induction p as [|a p IH]; intros s; simpl.
  - split; [intros _; by exists s | done].
  - destruct s as [|b s].
    + split; [done | intros [rest H]; rewrite app_cons in H; discriminate H].
    + rewrite andb_true_iff, Ascii.eqb_eq, IH. split.
      * intros [-> [rest ->]]. by exists rest.
      * intros [rest H]. rewrite app_cons in H. injection H as -> ->. eauto.
Qed.

Lemma contains_spec (x y : string) :
  Text.contains x y = true <-> is_substring x y.
Proof.
  unfold is_substring. induction y as [|c y IH].
  - simpl. rewrite orb_false_r, starts_with_spec. split.
    + intros [rest H]. by exists "", rest.
    + intros [[|b before] [after H]]; [by exists after |].
      rewrite app_cons in H. discriminate H.
  - cbn [Text.contains]. rewrite orb_true_iff, starts_with_spec, IH. split.
    + intros [[rest H] | (before & after & H)].
      * by exists "", rest.
      * exists (String c before), after. by rewrite app_cons, H.
    + intros [[|b before] [after H]].
      * left. by exists after.
      * right. rewrite app_cons in H. injection H as _ H. eauto.
Qed.

Lemma string_app_assoc (a b c : string) : (a +:+ b) +:+ c = a +:+ b +:+ c.
Proof. induction a as [|x a IH]; [done | by rewrite !app_cons, IH]. Qed.

Lemma string_app_nil_r (a : string) : a +:+ "" = a.
Proof. induction a as [|x a IH]; [done | by rewrite app_cons, IH]. Qed.

Lemma rev_app_spec (a b : string) :
  String.rev_app a b = String.rev a +:+ b.
Proof.
  unfold String.rev. revert b. induction a as [|x a IH]; intros b; simpl; [done|].
  rewrite (IH (String x b)), (IH (String x "")), string_app_assoc. done.
Qed.

Lemma rev_app_distr (a b : string) :
  String.rev (a +:+ b) = String.rev b +:+ String.rev a.
Proof.
  induction a as [|x a IH].
  - by rewrite app_nil_l, string_app_nil_r.
  - rewrite app_cons. unfold String.rev at 1 3. simpl.
    rewrite !rev_app_spec, IH, string_app_assoc. done.
Qed.

Lemma rev_involutive (a : string) : String.rev (String.rev a) = a.
Proof.
  induction a as [|x a IH]; [done|].
  unfold String.rev at 2. simpl. rewrite rev_app_spec, rev_app_distr, IH. done.
Qed.

Lemma ends_with_spec (p s : string) :
  Text.ends_with p s = true <-> exists front, s = front +:+ p.
Proof.
  unfold Text.ends_with. rewrite starts_with_spec. split.
  - intros [rest H]. exists (String.rev rest).
    rewrite <- (rev_involutive s), H, rev_app_distr, rev_involutive. done.
  - intros [front ->]. exists (String.rev front). apply rev_app_distr.
Qed.

Lemma truthy_spec (s : string) : Text.truthy s = true <-> s <> "".
Proof. destruct s; simpl; split; congruence. Qed.

(** ** The title matcher *)



Lemma titles_match_unfold (a b : string) :
  _titles_match a b =
    String.eqb (normalize a) (normalize b)
    || (Text.contains (normalize a) (normalize b)
        || Text.contains (normalize b) (normalize a))
    || ((0 <? size (content_words a)) && (0 <? size (content_words b))
        && ratio_above_07 (size (content_words a ∩ content_words b))
             (min (size (content_words a)) (size (content_words b)))).
Proof.
  unfold _titles_match, content_words. cbv zeta.
  destruct (String.eqb _ _); [done|].
  destruct (Text.contains _ _ || Text.contains _ _); [done|].
  simpl. by destruct (_ && _).
Qed.


(** C9. [_titles_match] is symmetric in its two titles. *)
Theorem titles_match_symmetric (a b : string) :
  _titles_match a b = _titles_match b a.
Proof.
  rewrite !titles_match_unfold.
  rewrite (String.eqb_sym (normalize a) (normalize b)).
  rewrite (orb_comm (Text.contains (normalize a) (normalize b))).
  rewrite (andb_comm (0 <? size (content_words a))).
  rewrite (intersection_comm_L (content_words a) (content_words b)).
  rewrite (Nat.min_comm (size (content_words a))).
  done.
Qed.

(** ** Reasoning about monadic code *)

Lemma bind_inv {A B} (m : M A) (k : A -> M B) w r w' :
  bind m k w = (r, w') ->
  (exists a w1, m w = (Ok a, w1) /\ k a w1 = (r, w'))
  \/ (exists e, m w = (Raise e, w') /\ r = Raise e).
Proof.
  unfold bind. destruct (m w) as [[a|e] w1]; intros H.
  - left. eauto.
  - right. injection H as <- <-. eauto.
Qed.

Lemma try_except_inv {A} (body : M A) (handler : exn -> M A) w r w' :
  try_except body handler w = (r, w') ->
  (exists a, body w = (Ok a, w') /\ r = Ok a)
  \/ (exists e w1, body w = (Raise e, w1) /\ handler e w1 = (r, w')).
Proof.
  unfold try_except. destruct (body w) as [[a|e] w1]; intros H.
  - left. injection H as <- <-. eauto.
  - right. eauto.
Qed.

Lemma print_inv msg w r w' :
  print msg w = (r, w') ->
  r = Ok tt /\ files w' = files w /\ failed_downloads w' = failed_downloads w
  /\ events w' = events w /\ stdout w' = stdout w ++ [msg].
Proof. intros H. injection H as <- <-. done. Qed.

Lemma ret_inv {A} (a : A) w r w' : ret a w = (r, w') -> r = Ok a /\ w' = w.
Proof. intros H. by injection H as <- <-. Qed.

Lemma raise_inv {A} e w (r : result A) w' :
  raise e w = (r, w') -> r = Raise e /\ w' = w.
Proof. intros H. by injection H as <- <-. Qed.

(** Splits a hypothesis on a sequence of two computations into its cases. *)
Ltac inv_bind H :=
  let a := fresh "a" in let w1 := fresh "w" in let e := fresh "e" in
  let H1 := fresh H in
  apply bind_inv in H as [(a & w1 & H1 & H) | (e & H1 & H)].

(** ** The resolver *)

Lemma arxiv_only_ret {A} (a : A) : arxiv_only (ret a).
Proof. intros w r w' [_ ->]%ret_inv. repeat split. exists []. by rewrite app_nil_r. Qed.

Lemma arxiv_only_raise {A} e : arxiv_only (@raise A e).
Proof. intros w r w' [_ ->]%raise_inv. repeat split. exists []. by rewrite app_nil_r. Qed.

Lemma arxiv_only_print msg : arxiv_only (print msg).
Proof.
  intros w r w' (_ & -> & -> & -> & _)%print_inv. repeat split.
  exists []. by rewrite app_nil_r.
Qed.

Lemma arxiv_only_bind {A B} (m : M A) (k : A -> M B) :
  arxiv_only m -> (forall a, arxiv_only (k a)) -> arxiv_only (bind m k).
Proof.
  intros Hm Hk w r w' H. inv_bind H.
  - destruct (Hm _ _ _ H0) as (Hf & Hd & q1 & He).
    destruct (Hk _ _ _ _ H) as (Hf' & Hd' & q2 & He').
    repeat split; [congruence..|]. exists (q1 ++ q2).
    by rewrite He', He, map_app, app_assoc.
  - exact (Hm _ _ _ H0).
Qed.

Lemma arxiv_only_try {A} (body : M A) handler :
  arxiv_only body -> (forall e, arxiv_only (handler e)) ->
  arxiv_only (try_except body handler).
Proof.
  intros Hm Hk w r w' [(a & H & _) | (e & w1 & H1 & H2)]%try_except_inv.
  - exact (Hm _ _ _ H).
  - destruct (Hm _ _ _ H1) as (Hf & Hd & q1 & He).
    destruct (Hk _ _ _ _ H2) as (Hf' & Hd' & q2 & He').
    repeat split; [congruence..|]. exists (q1 ++ q2).
    by rewrite He', He, map_app, app_assoc.
Qed.

Section ResolverFacts.

Variable E : env.

Lemma arxiv_get_inv query w r w' :
  arxiv_get E query w = (r, w') ->
  w' = emit (EvArxivGet query) w
  /\ r = match arxiv_server E (events w) query with
         | ArxivRaise e => Raise e
         | ArxivFeed entries => Ok entries
         end.
Proof.
  unfold arxiv_get. destruct (arxiv_server _ _ _); intros H; by injection H as <- <-.
Qed.

Lemma arxiv_only_get query : arxiv_only (arxiv_get E query).
Proof.
  intros w r w' [-> _]%arxiv_get_inv. repeat split. by exists [query].
Qed.

Lemma arxiv_only_links links : arxiv_only (for_links links).
Proof.
  induction links as [|l links IH]; simpl; [apply arxiv_only_ret|].
  case_bool_decide; [|done].
  destruct (l_href l); [|apply arxiv_only_raise].
  apply arxiv_only_bind; [apply arxiv_only_print | intros; apply arxiv_only_ret].
Qed.

Lemma arxiv_only_entries title entries : arxiv_only (for_entries title entries).
Proof.
  induction entries as [|e entries IH]; simpl; [apply arxiv_only_ret|].
  apply arxiv_only_bind.
  - destruct (e_title e); [apply arxiv_only_ret | apply arxiv_only_raise].
  - intros t. destruct (_titles_match title t); [|done].
    apply arxiv_only_bind; [apply arxiv_only_links|].
    intros [u|]; [apply arxiv_only_ret | done].
Qed.

Lemma arxiv_only_queries title queries : arxiv_only (for_queries E title queries).
Proof.
  induction queries as [|q queries IH]; simpl; [apply arxiv_only_ret|].
  apply arxiv_only_bind; [apply arxiv_only_get|]. intros entries.
  apply arxiv_only_bind; [apply arxiv_only_entries|].
  intros [u|]; [apply arxiv_only_ret | done].
Qed.

Lemma arxiv_only_search_queries title authors : arxiv_only (search_queries title authors).
Proof.
  unfold search_queries. destruct authors as [|first ?]; [apply arxiv_only_ret|].
  destruct (last _); [apply arxiv_only_ret | apply arxiv_only_raise].
Qed.

Lemma arxiv_only_search title authors :
  arxiv_only (search_arxiv_for_paper E title authors).
Proof.
  apply arxiv_only_try.
  - apply arxiv_only_bind; [apply arxiv_only_search_queries|].
    intros; apply arxiv_only_queries.
  - intros e. apply arxiv_only_bind; [apply arxiv_only_print|].
    intros; apply arxiv_only_ret.
Qed.

(** The resolver catches every exception. *)
Lemma search_arxiv_returns title authors w :
  exists found w', search_arxiv_for_paper E title authors w = (Ok found, w').
Proof.
  unfold search_arxiv_for_paper, try_except.
  destruct (bind _ _ w) as [[found|e] w1]; [eauto|].
  unfold bind, print, ret. eauto.
Qed.

(** A URL the resolver returns is not empty. *)
Lemma for_links_truthy links w url w' :
  for_links links w = (Ok (Some url), w') -> Text.truthy url = true.
Proof.
  induction links as [|l links IH]; simpl; [intros [[=] _]%ret_inv|].
  case_bool_decide as Hpdf; [|done].
  destruct (l_href l) as [href|]; [|intros [[=] _]%raise_inv].
  intros H. inv_bind H; [|done]. apply ret_inv in H as [[= Hu] _].
  rewrite Hu. destruct (Text.contains "/pdf/" href) eqn:Hc; simpl.
  - by destruct href.
  - by destruct (Text.replace _ _ _).
Qed.

Lemma for_entries_truthy title entries w url w' :
  for_entries title entries w = (Ok (Some url), w') -> Text.truthy url = true.
Proof.
  revert w. induction entries as [|e entries IH]; simpl; intros w;
    [intros [[=] _]%ret_inv|].
  intros H. inv_bind H; [|done].
  destruct (_titles_match title a); [|by eapply IH].
  inv_bind H; [|done]. destruct a0 as [u|]; [|by eapply IH].
  apply ret_inv in H as [[= ->] ->]. by eapply for_links_truthy.
Qed.

Lemma for_queries_truthy title queries w url w' :
  for_queries E title queries w = (Ok (Some url), w') -> Text.truthy url = true.
Proof.
  revert w. induction queries as [|q queries IH]; simpl; intros w;
    [intros [[=] _]%ret_inv|].
  intros H. inv_bind H; [|done]. inv_bind H; [|done].
  destruct a0 as [u|]; [|by eapply IH].
  apply ret_inv in H as [[= ->] ->]. by eapply for_entries_truthy.
Qed.

Lemma search_arxiv_truthy title authors w url w' :
  search_arxiv_for_paper E title authors w = (Ok (Some url), w') ->
  Text.truthy url = true.
Proof.
  intros [(a & H & [= <-]) | (e & w1 & _ & H)]%try_except_inv.
  - inv_bind H; [|done]. by eapply for_queries_truthy.
  - inv_bind H; [|done]. by apply ret_inv in H as [[=] _].
Qed.

End ResolverFacts.

(** ** Source selection *)

Lemma direct_pdf_link_spec ee :
  Text.ends_with ".pdf" ee || Text.contains "arxiv.org/pdf" ee = true
  <-> direct_pdf_link ee.
Proof.
  unfold direct_pdf_link, is_suffix.
  by rewrite orb_true_iff, ends_with_spec, contains_spec.
Qed.

Lemma paywalled_link_spec ee :
  Text.contains "ojs.aaai.org" ee || Text.contains "doi.org/10.1609" ee = true
  <-> paywalled_link ee.
Proof. unfold paywalled_link. by rewrite orb_true_iff, !contains_spec. Qed.

(** C4. The strategies of the selection step, in order: a URL returned by
    the resolver is chosen; without one, the embedded link is chosen as a
    direct link if it ends in ".pdf" or contains "arxiv.org/pdf";
    otherwise it is skipped (no source) if it is a link to the paywalled
    venue, and chosen as a broad link if not; without a resolver result
    and without an embedded link no source is chosen. *)
Theorem select_source_order (E : env) (ee : string) :
  (forall title authors w w' url,
      search_arxiv_for_paper E title authors w = (Ok (Some url), w') ->
      select_source (Some url) ee = Chosen url "arXiv")
  /\ (ee <> "" -> direct_pdf_link ee ->
      select_source None ee = Chosen ee "DBLP direct link")
  /\ (ee <> "" -> ~ direct_pdf_link ee -> paywalled_link ee ->
      select_source None ee = SkippedOjs)
  /\ (ee <> "" -> ~ direct_pdf_link ee -> ~ paywalled_link ee ->
      select_source None ee = Chosen ee "DBLP EE link")
  /\ (ee = "" -> select_source None ee = NoSource).
Proof.
  unfold select_source, select_from_ee. repeat split.
  - intros title authors w w' url H%search_arxiv_truthy. by rewrite H.
  - intros Hee%truthy_spec Hd%direct_pdf_link_spec. by rewrite Hee, Hd.
  - intros Hee%truthy_spec Hd Hp%paywalled_link_spec. rewrite Hee, Hp.
    destruct (Text.ends_with _ _ || _) eqn:Hb; [|done].
    by apply direct_pdf_link_spec in Hb.
  - intros Hee%truthy_spec Hd Hp. rewrite Hee.
    destruct (Text.ends_with _ _ || _) eqn:Hb;
      [by apply direct_pdf_link_spec in Hb|].
    destruct (Text.contains _ _ || _) eqn:Hb'; [|done].
    by apply paywalled_link_spec in Hb'.
  - by intros ->.
Qed.

(** ** The first result the resolver returns *)





(** ** The bibliographic search *)

Lemma prints_only_refl w : prints_only w w.
Proof. repeat split. exists []. by rewrite app_nil_r. Qed.

Lemma prints_only_trans w1 w2 w3 :
  prints_only w1 w2 -> prints_only w2 w3 -> prints_only w1 w3.
Proof.
  intros (Hf & Hd & He & o1 & Ho) (Hf' & Hd' & He' & o2 & Ho').
  repeat split; [congruence..|]. exists (o1 ++ o2). by rewrite Ho', Ho, app_assoc.
Qed.

Lemma prints_only_print msg w : prints_only w (print msg w).2.
Proof. repeat split. by exists [msg]. Qed.

Section SearchFacts.

Variable E : env.
Variables keyword venue : string.

Lemma keeps_spec info : keeps keyword venue info = true <-> kept keyword venue info.
Proof.
  unfold keeps, kept, mentions. by rewrite andb_true_iff, !contains_spec.
Qed.

Lemma hit_step_textual search_year info papers w :
  textual info ->
  exists w', hit_step keyword venue search_year (HitObject info) papers w
             = (Ok (papers ++ filtered_records keyword venue [info]), w')
    /\ prints_only w w'.
Proof.
  intros (t & v & Ht & Hv).
  unfold hit_step, filtered_records, keeps, lower_of, bind, ret, raise. simpl.
  rewrite Ht, Hv. simpl.
  destruct (Text.contains (Text.lower keyword) (Text.lower t)); simpl.
  - destruct (Text.contains (Text.lower venue) (Text.lower v)); simpl.
    + eexists. split; [reflexivity|]. apply prints_only_print.
    + exists w. rewrite app_nil_r. split; [done | apply prints_only_refl].
  - exists w. rewrite app_nil_r. split; [done | apply prints_only_refl].
Qed.

Lemma filtered_records_cons info infos :
  filtered_records keyword venue (info :: infos)
  = filtered_records keyword venue [info] ++ filtered_records keyword venue infos.
Proof.
  unfold filtered_records. simpl. by destruct (keeps keyword venue info).
Qed.

(** The iteration never raises, whatever the hit. *)
Lemma hit_step_prints search_year hit papers w r w' :
  hit_step keyword venue search_year hit papers w = (r, w') -> prints_only w w'.
Proof.
  unfold hit_step, lower_of, bind, ret, raise, print. intros H.
  repeat case_match; simplify_eq;
    first [apply prints_only_refl | repeat split; by eexists].
Qed.

(** An iteration appends nothing, or the record of a hit that passes
    the filter. *)
Lemma hit_step_sound search_year hit papers w papers' w' :
  hit_step keyword venue search_year hit papers w = (Ok papers', w') ->
  exists added, papers' = papers ++ added /\ Forall (relevant keyword venue) added.
Proof.
  unfold hit_step, lower_of, bind, ret, raise, print. intros H.
  repeat case_match; simplify_eq;
    try (exists []; split; [by rewrite app_nil_r | constructor]).
  eexists. split; [reflexivity|]. constructor; [|constructor].
  unfold relevant, mentions, record_of. simpl.
  split; apply contains_spec;
    repeat match goal with Ht : _ = JText _ |- _ => rewrite Ht; clear Ht end;
    done.
Qed.

Lemma for_hits_sound search_year hits papers w papers' err w' :
  for_hits keyword venue search_year hits papers w = (Ok (papers', err), w') ->
  exists added, papers' = papers ++ added /\ Forall (relevant keyword venue) added.
Proof.
  revert papers w. induction hits as [|hit hits IH]; intros papers w; simpl.
  - intros [= <- _ _]. exists []. split; [by rewrite app_nil_r | constructor].
  - destruct (hit_step _ _ _ hit papers w) as [[papers1|e] w1] eqn:Hstep.
    + intros (added2 & -> & Hall2)%IH.
      apply hit_step_sound in Hstep as (added1 & -> & Hall1).
      exists (added1 ++ added2). split; [by rewrite app_assoc|].
      by apply Forall_app.
    + intros [= <- _ _]. exists []. split; [by rewrite app_nil_r | constructor].
Qed.

Lemma for_hits_returns search_year hits papers w :
  exists papers' err w',
    for_hits keyword venue search_year hits papers w = (Ok (papers', err), w')
    /\ prints_only w w'.
Proof.
  revert papers w. induction hits as [|hit hits IH]; intros papers w; simpl.
  - exists papers, None, w. split; [done | apply prints_only_refl].
  - destruct (hit_step _ _ _ hit papers w) as [[papers1|e] w1] eqn:Hstep.
    + destruct (IH papers1 w1) as (papers' & err & w' & Hrun & Hp).
      exists papers', err, w'. split; [done|].
      exact (prints_only_trans _ _ _ (hit_step_prints _ _ _ _ _ _ Hstep) Hp).
    + exists papers, (Some e), w1. split; [done | by eapply hit_step_prints].
Qed.

Lemma for_hits_textual search_year infos rest papers w :
  Forall textual infos ->
  exists w1,
    for_hits keyword venue search_year ((HitObject <$> infos) ++ rest) papers w
    = for_hits keyword venue search_year rest
        (papers ++ filtered_records keyword venue infos) w1
    /\ prints_only w w1.
Proof.
  intros Hall. revert papers w.
  induction Hall as [|info infos Hinfo _ IH]; intros papers w.
  - exists w. simpl. unfold filtered_records. simpl. rewrite app_nil_r.
    split; [done | apply prints_only_refl].
  - destruct (hit_step_textual search_year info papers w Hinfo) as (w1 & Hstep & Hp1).
    destruct (IH (papers ++ filtered_records keyword venue [info]) w1)
      as (w2 & Hrun & Hp2).
    exists w2. split; [|exact (prints_only_trans _ _ _ Hp1 Hp2)].
    rewrite fmap_cons. simpl. rewrite Hstep, Hrun.
    by rewrite (filtered_records_cons info infos), app_assoc.
Qed.

End SearchFacts.

Section SearchYears.

Variable E : env.
Variables keyword venue : string.

Lemma search_year_step_spec search_year papers w :
  exists papers' w' out,
    search_year_step E keyword venue search_year papers w = (Ok papers', w')
    /\ files w' = files w /\ failed_downloads w' = failed_downloads w
    /\ events w' = events w ++ [EvDblpGet (dblp_query keyword venue search_year)]
    /\ stdout w' = stdout w ++ out
    /\ year_outcome keyword venue search_year
         (dblp_server E (events w) (dblp_query keyword venue search_year))
         papers papers' out.
Proof.
  unfold search_year_step, year_outcome.
  unfold bind at 1, print at 1, try_except, bind at 1, dblp_get. cbn [events].
  set (w0 := {| files := files w; failed_downloads := failed_downloads w;
                events := events w; stdout := _ |}).
  destruct (dblp_server E (events w) _) as [e | hits].
  - eexists papers, _, [MsgSearchingDblp keyword venue search_year;
                          MsgDblpError search_year e].
    split; [reflexivity|]. simpl.
    repeat split; [by rewrite <- app_assoc |].
    rewrite elem_of_cons, list_elem_of_singleton. auto.
  - set (w1 := emit _ w0).
    destruct (for_hits_returns keyword venue search_year hits papers w1)
      as (papers' & err & w2 & Hrun & Hf & Hd & He & out & Ho).
    unfold bind at 1. rewrite Hrun.
    assert (Hfacts : forall infos rest, hits = (HitObject <$> infos) ++ rest ->
              Forall textual infos ->
              exists w3, for_hits keyword venue search_year rest
                           (papers ++ filtered_records keyword venue infos) w3
                         = (Ok (papers', err), w2)).
    { intros infos rest -> Hall.
      destruct (for_hits_textual keyword venue search_year infos rest papers w1 Hall)
        as (w3 & Heq & _). exists w3. by rewrite <- Heq. }
    assert (Hgood : forall infos, hits = HitObject <$> infos -> Forall textual infos ->
              papers' = papers ++ filtered_records keyword venue infos /\ err = None).
    { intros infos Hh Hall. destruct (Hfacts infos []) as [w3 H3]; [|done|].
      - by rewrite app_nil_r.
      - simpl in H3. by injection H3 as <- <- _. }
    assert (Hbad : forall infos type_name rest,
              hits = (HitObject <$> infos) ++ HitOther type_name :: rest ->
              Forall textual infos ->
              papers' = papers ++ filtered_records keyword venue infos
              /\ exists e, err = Some e).
    { intros infos ty rest Hh Hall.
      destruct (Hfacts infos _ Hh Hall) as [w3 H3].
      simpl in H3. injection H3 as <- <- _. eauto. }
    destruct err as [e|].
    + eexists papers', _, (MsgSearchingDblp keyword venue search_year
                             :: out ++ [MsgDblpError search_year e]).
      split; [reflexivity|]. simpl.
      rewrite Hf, Hd, He, Ho. simpl.
      repeat split; [by rewrite <- !app_assoc | | |].
      * intros infos Hh Hall. by destruct (Hgood infos Hh Hall).
      * by destruct (Hbad infos type_name rest).
      * exists e. rewrite elem_of_cons, elem_of_app, list_elem_of_singleton. auto.
    + eexists papers', _,
        (MsgSearchingDblp keyword venue search_year
           :: out ++ [MsgFoundCount (count_year papers' search_year) search_year]).
      split; [reflexivity|]. simpl.
      rewrite Hf, Hd, He, Ho. simpl.
      repeat split; [by rewrite <- !app_assoc | | |].
      * intros infos Hh Hall. by destruct (Hgood infos Hh Hall).
      * by destruct (Hbad infos type_name rest).
      * by destruct (Hbad infos type_name rest) as [_ [e [=]]].
Qed.

(** The two requests of [search_dblp], whatever the servers answer: the
    call returns, and neither year's outcome depends on the other's. *)
Lemma search_dblp_spec (year : Z) (w : world) :
  exists papers1 papers w' out1 out2,
    search_dblp E keyword venue year w = (Ok papers, w')
    /\ files w' = files w /\ failed_downloads w' = failed_downloads w
    /\ events w' = events w ++ [EvDblpGet (dblp_query keyword venue year);
                                EvDblpGet (dblp_query keyword venue (year - 1))]
    /\ stdout w' = stdout w ++ out1 ++ out2
    /\ year_outcome keyword venue year
         (dblp_server E (events w) (dblp_query keyword venue year))
         [] papers1 out1
    /\ year_outcome keyword venue (year - 1)
         (dblp_server E (events w ++ [EvDblpGet (dblp_query keyword venue year)])
            (dblp_query keyword venue (year - 1)))
         papers1 papers out2.
Proof.
  destruct (search_year_step_spec year [] w)
    as (papers1 & w1 & out1 & Hrun1 & Hf1 & Hd1 & He1 & Ho1 & Hy1).
  destruct (search_year_step_spec (year - 1) papers1 w1)
    as (papers & w' & out2 & Hrun2 & Hf2 & Hd2 & He2 & Ho2 & Hy2).
  exists papers1, papers, w', out1, out2.
  unfold search_dblp, bind. rewrite Hrun1, Hrun2.
  rewrite He1 in Hy2, He2. rewrite Ho1 in Ho2.
  repeat split; try congruence.
  - by rewrite He2, <- app_assoc.
  - by rewrite Ho2, app_assoc.
Qed.

Lemma search_year_step_sound search_year papers w papers' w' :
  search_year_step E keyword venue search_year papers w = (Ok papers', w') ->
  exists added, papers' = papers ++ added /\ Forall (relevant keyword venue) added.
Proof.
  unfold search_year_step.
  unfold bind at 1, print at 1, try_except, bind at 1, dblp_get. cbn [events].
  destruct (dblp_server E (events w) _) as [e | hits].
  - intros [= <- _]. exists []. split; [by rewrite app_nil_r | constructor].
  - match goal with
    | |- context [emit ?ev ?w0] =>
        destruct (for_hits_returns keyword venue search_year hits papers (emit ev w0))
          as (papers1 & err & w2 & Hrun & _)
    end.
    unfold bind at 1. rewrite Hrun.
    apply for_hits_sound in Hrun.
    destruct err; by intros [= <- _].
Qed.

Lemma search_dblp_sound year w papers w' :
  search_dblp E keyword venue year w = (Ok papers, w') ->
  Forall (relevant keyword venue) papers.
Proof.
  unfold search_dblp. intros H. inv_bind H; [|done].
  apply search_year_step_sound in H0 as (added1 & -> & Hall1).
  apply search_year_step_sound in H as (added2 & -> & Hall2).
  by apply Forall_app.
Qed.

End SearchYears.

(** C8. [search_dblp] sends one request for the target year and then one
    for the year before, and every record it returns is of a hit whose
    title mentions the keyword and whose venue mentions the requested
    venue (letter case aside). When both answers are lists of well-formed
    hits, it returns the records of all such hits, the target year's
    first, then the previous year's, each in the order of the answer. *)
Theorem search_dblp_filters_and_orders (E : env) (keyword venue : string)
    (year : Z) (w : world) :
  let query := dblp_query keyword venue year in
  let query_before := dblp_query keyword venue (year - 1) in
  (exists papers w',
      search_dblp E keyword venue year w = (Ok papers, w')
      /\ events w' = events w ++ [EvDblpGet query; EvDblpGet query_before]
      /\ Forall (relevant keyword venue) papers)
  /\ (forall infos infos_before,
        dblp_server E (events w) query = DblpJson (HitObject <$> infos) ->
        dblp_server E (events w ++ [EvDblpGet query]) query_before
          = DblpJson (HitObject <$> infos_before) ->
        Forall textual infos ->
        Forall textual infos_before ->
        exists w',
          search_dblp E keyword venue year w
          = (Ok (filtered_records keyword venue infos
                 ++ filtered_records keyword venue infos_before), w')
          /\ (forall info, keeps keyword venue info = true <->
                mentions keyword (text_of (i_title info))
                /\ mentions venue (text_of (i_venue info)))).
Proof.
  intros query query_before.
  destruct (search_dblp_spec E keyword venue year w)
    as (papers1 & papers & w' & out1 & out2 & Hrun & _ & _ & Hev & _ & Hy1 & Hy2).
  split.
  - exists papers, w'. split; [done|]. split; [done|]. by eapply search_dblp_sound.
  - intros infos infos_before H1 H2 Hall1 Hall2.
    fold query in Hy1, Hy2. fold query_before in Hy2.
    rewrite H1 in Hy1. rewrite H2 in Hy2.
    destruct Hy1 as [Hy1 _]. destruct Hy2 as [Hy2 _].
    specialize (Hy1 infos eq_refl Hall1). specialize (Hy2 infos_before eq_refl Hall2).
    simpl in Hy1. subst papers1 papers.
    exists w'. split; [done|]. intros info. apply keeps_spec.
Qed.


(** ** The download step *)

Lemma quiet_refl w : quiet w w.
Proof. by repeat split. Qed.

Lemma quiet_trans w1 w2 w3 : quiet w1 w2 -> quiet w2 w3 -> quiet w1 w3.
Proof.
  intros (Hd & Hg & Hf) (Hd' & Hg' & Hf'). repeat split; [congruence..|].
  intros path H. by apply Hf', Hf.
Qed.

Lemma is_Some_insert (m : gmap string file) p q f :
  is_Some (m !! q) -> is_Some (<[p := f]> m !! q).
Proof.
  intros H. destruct (decide (p = q)) as [->|Hne].
  - rewrite lookup_insert_eq. eauto.
  - by rewrite lookup_insert_ne.
Qed.

Lemma quietly_ret {A} (a : A) : quietly (ret a).
Proof. intros w r w' [_ ->]%ret_inv. apply quiet_refl. Qed.

Lemma quietly_raise {A} e : quietly (@raise A e).
Proof. intros w r w' [_ ->]%raise_inv. apply quiet_refl. Qed.

Lemma quietly_print msg : quietly (print msg).
Proof. intros w r w' [= _ <-]. by repeat split. Qed.

Lemma quietly_put_file path f : quietly (put_file path f).
Proof.
  intros w r w' [= _ <-]. repeat split. simpl. intros q. apply is_Some_insert.
Qed.

Lemma quietly_bind {A B} (m : M A) (k : A -> M B) :
  quietly m -> (forall a, quietly (k a)) -> quietly (bind m k).
Proof.
  intros Hm Hk w r w' H. inv_bind H.
  - exact (quiet_trans _ _ _ (Hm _ _ _ H0) (Hk _ _ _ _ H)).
  - exact (Hm _ _ _ H0).
Qed.

Lemma quietly_try {A} (body : M A) handler :
  quietly body -> (forall e, quietly (handler e)) -> quietly (try_except body handler).
Proof.
  intros Hm Hk w r w' [(a & H & _) | (e & w1 & H1 & H2)]%try_except_inv.
  - exact (Hm _ _ _ H).
  - exact (quiet_trans _ _ _ (Hm _ _ _ H1) (Hk _ _ _ _ H2)).
Qed.

Lemma pdf_gets_app evs evs' : pdf_gets (evs ++ evs') = pdf_gets evs + pdf_gets evs'.
Proof. unfold pdf_gets. by rewrite List.filter_app, length_app. Qed.

Lemma pdf_gets_arxiv queries : pdf_gets (map EvArxivGet queries) = 0.
Proof. induction queries; [done | exact IHqueries]. Qed.

Lemma arxiv_only_quietly {A} (m : M A) : arxiv_only m -> quietly m.
Proof.
  intros Hm w r w' (Hf & Hd & queries & He)%Hm. repeat split; [done | |].
  - rewrite He, pdf_gets_app, pdf_gets_arxiv. lia.
  - intros path. by rewrite Hf.
Qed.

Section DownloadFacts.

Variable E : env.

Lemma open_write_inv path w r w' :
  open_write E path w = (r, w') ->
  quiet w w' /\ (r = Ok tt -> is_Some (files w' !! path)).
Proof.
  unfold open_write. destruct (open_error E (events w) path) as [e|].
  - intros [= <- <-]. split; [|done]. repeat split; simpl; [|done].
    by rewrite pdf_gets_app, Nat.add_0_r.
  - intros [= <- <-]. split.
    + repeat split; simpl.
      * by rewrite pdf_gets_app, Nat.add_0_r.
      * intros q. apply is_Some_insert.
    + intros _. simpl. rewrite lookup_insert_eq. eauto.
Qed.

Lemma quietly_open_write path : quietly (open_write E path).
Proof. intros w r w' H. by apply open_write_inv in H as [? _]. Qed.

Lemma quietly_write_chunk path chunk : quietly (write_chunk path chunk).
Proof.
  intros w r w'. unfold write_chunk.
  destruct (files w !! path) as [[]|]; apply quietly_put_file.
Qed.

Lemma quietly_for_chunks path chunks : quietly (for_chunks path chunks).
Proof.
  induction chunks as [|chunk chunks IH]; simpl; [apply quietly_ret|].
  apply quietly_bind; [apply quietly_write_chunk | done].
Qed.

Lemma quietly_now : quietly (now E).
Proof. intros w r w' [= _ <-]. apply quiet_refl. Qed.

Lemma quietly_raise_for_status response : quietly (raise_for_status response).
Proof.
  unfold raise_for_status. destruct (_ && _); [apply quietly_raise | apply quietly_ret].
Qed.

Lemma quietly_search_arxiv title authors :
  quietly (search_arxiv_for_paper E title authors).
Proof. apply arxiv_only_quietly, arxiv_only_search. Qed.

End DownloadFacts.

Create HintDb quietly.

#[local] Hint Resolve quietly_ret quietly_raise quietly_print quietly_put_file
  quietly_open_write quietly_write_chunk quietly_for_chunks quietly_now
  quietly_raise_for_status quietly_search_arxiv : quietly.

(** Proves [quietly m] for a sequence [m] of quiet steps. *)
Ltac quietly_steps :=
  repeat first
    [ apply quietly_bind; [|intros ?]
    | progress eauto with quietly
    | match goal with
      | |- quietly (if ?b then _ else _) => destruct b
      | |- quietly (match ?o with Some _ => _ | None => _ end) => destruct o
      end ].

Lemma returns_true_bind {A} (m : M A) (k : A -> M bool) :
  (forall a, returns_true (k a)) -> returns_true (bind m k).
Proof. intros Hk w b w' H. inv_bind H; [by eapply Hk | done]. Qed.

Lemma leaves_bind_tail {A B} path (m : M A) (k : A -> M B) :
  (forall a, leaves path (k a)) -> leaves path (bind m k).
Proof. intros Hk w b w' H. inv_bind H; [by eapply Hk | done]. Qed.

Lemma leaves_bind_head {A B} path (m : M A) (k : A -> M B) :
  leaves path m -> (forall a, quietly (k a)) -> leaves path (bind m k).
Proof.
  intros Hm Hk w b w' H. inv_bind H; [|done].
  apply Hm in H0. apply Hk in H as (_ & _ & Hfiles). by apply Hfiles.
Qed.

Section DownloadSteps.

Variable E : env.
Variable output_dir : string.

Lemma quietly_store_response paper index pdf_url source response :
  quietly (store_response E output_dir paper index pdf_url source response).
Proof. unfold store_response. quietly_steps. Qed.

Lemma store_response_true paper index pdf_url source response :
  returns_true (store_response E output_dir paper index pdf_url source response).
Proof.
  unfold store_response. repeat (apply returns_true_bind; intros ?).
  by intros w b w' [[= ->] _]%ret_inv.
Qed.

Lemma store_response_leaves paper index pdf_url source response :
  leaves (pdf_path output_dir (p_title paper) index)
    (store_response E output_dir paper index pdf_url source response).
Proof.
  unfold store_response.
  do 2 (apply leaves_bind_tail; intros ?).
  apply leaves_bind_head.
  - intros w [] w' H. apply open_write_inv in H as [_ H]. by apply H.
  - intros ?. quietly_steps.
Qed.

(** What one pass through the [try] body does, by its outcome. *)
Lemma fetch_and_store_spec paper index pdf_url source w r w' :
  fetch_and_store E output_dir paper index pdf_url source w = (r, w') ->
  events w' <> events w
  /\ pdf_gets (events w') = pdf_gets (events w) + 1
  /\ (forall path, is_Some (files w !! path) -> is_Some (files w' !! path))
  /\ match r with
     | Ok true =>
         failed_downloads w' = failed_downloads w
         /\ is_Some (files w' !! pdf_path output_dir (p_title paper) index)
     | Ok false =>
         failed_downloads w' = failed_downloads w ++
           [{| f_index := index; f_title := p_title paper;
               f_reason := "403 Forbidden from " +:+ source;
               f_url := Some pdf_url |}]
     | Raise e => failed_downloads w' = failed_downloads w
     end.
Proof.
  unfold fetch_and_store, bind at 1, print at 1, bind at 1, pdf_get. cbn [events].
  set (w0 := {| files := files w; failed_downloads := failed_downloads w;
                events := events w; stdout := _ |}).
  assert (Hne : forall evs : list event, evs ++ [EvPdfGet pdf_url] <> evs).
  { intros evs Heq. apply (f_equal length) in Heq. rewrite length_app in Heq.
    simpl in Heq. lia. }
  assert (Hgets : forall evs, pdf_gets (evs ++ [EvPdfGet pdf_url]) = pdf_gets evs + 1).
  { intros evs. by rewrite pdf_gets_app. }
  destruct (pdf_server E (events w) pdf_url) as [e | response].
  - intros [= <- <-]. simpl. auto.
  - destruct (status_code response =? 403).
    + intros [= <- <-]. simpl. auto.
    + intros H.
      destruct (quietly_store_response _ _ _ _ _ _ _ _ H) as (Hd & Hg & Hf).
      simpl in Hd, Hg, Hf.
      split; [|split; [|split]].
      * intros Heq. rewrite Heq in Hg. rewrite Hgets in Hg. lia.
      * by rewrite Hg, Hgets.
      * done.
      * destruct r as [b|e]; [|done].
        pose proof (store_response_true _ _ _ _ _ _ _ _ H) as ->.
        split; [done|]. by eapply store_response_leaves.
Qed.

(** The download step returns; [true] leaves the failure list as it is
    and the artifact in place, [false] appends one record, which holds
    [str(e)] when the step failed with exception [e]. *)
Lemma download_paper_spec paper index w :
  exists ok w',
    download_paper E output_dir paper index w = (Ok ok, w')
    /\ (forall path, is_Some (files w !! path) -> is_Some (files w' !! path))
    /\ (ok = true ->
        failed_downloads w' = failed_downloads w
        /\ is_Some (files w' !! pdf_path output_dir (p_title paper) index))
    /\ (ok = false ->
        exists f, failed_downloads w' = failed_downloads w ++ [f]
                  /\ f_index f = index /\ f_title f = p_title paper)
    /\ (files w !! pdf_path output_dir (p_title paper) index = None ->
        ok = true -> pdf_gets (events w') = pdf_gets (events w) + 1).
Proof.
  unfold download_paper, bind at 1, print at 1, bind at 1, path_exists. cbn [files].
  set (path := pdf_path output_dir (p_title paper) index).
  set (w0 := {| files := files w; failed_downloads := failed_downloads w;
                events := events w; stdout := _ |}).
  case_bool_decide as Hex.
  - eexists true, _. split; [reflexivity|]. simpl.
    repeat split; try done. intros Hnone. rewrite Hnone in Hex. by destruct Hex.
  - unfold bind at 1, print at 1. cbn [files failed_downloads events stdout].
    set (w1 := {| files := files w0; failed_downloads := _; events := _; stdout := _ |}).
    unfold bind at 1.
    destruct (search_arxiv_returns E (p_title paper) (p_authors paper) w1)
      as (arxiv_url & w2 & Hsearch).
    rewrite Hsearch.
    destruct (quietly_search_arxiv _ _ _ _ _ _ Hsearch) as (Hd2 & Hg2 & Hf2).
    simpl in Hd2, Hg2, Hf2.
    destruct (select_source arxiv_url (p_ee paper)) as [pdf_url source| |].
    + unfold bind at 1, ret at 1, try_except.
      destruct (fetch_and_store E output_dir paper index pdf_url source w2)
        as [[[]|e] w3] eqn:Hfetch;
        apply fetch_and_store_spec in Hfetch as (_ & Hg3 & Hf3 & Hr).
      * destruct Hr as [Hd3 Hsome]. exists true, w3.
        repeat split; try done; try congruence; auto.
      * exists false, w3. repeat split; try done; auto.
        intros _. eexists. split; [by rewrite Hr, Hd2|]. done.
      * eexists false, _. split; [reflexivity|]. simpl.
        repeat split; try done; auto.
        intros _. eexists. split; [by rewrite Hr, Hd2|]. done.
    + eexists false, _. split; [reflexivity|]. simpl.
      repeat split; try done; auto.
      intros _. eexists. split; [by rewrite Hd2|]. done.
    + eexists false, _. split; [reflexivity|]. simpl.
      repeat split; try done; auto.
      intros _. eexists. split; [by rewrite Hd2|]. done.
Qed.

End DownloadSteps.

(** ** The reports *)

Section RunFacts.

Variable E : env.
Variable output_dir : string.

Lemma path_join_inj a b :
  path_join output_dir a = path_join output_dir b -> a = b.
Proof.
  unfold path_join. destruct (negb _); [done|].
  destruct (Text.ends_with _ _); intros H.
  - by apply (inj (String.app output_dir)) in H.
  - apply (inj (String.app output_dir)) in H.
    by apply (inj (String.app "/")) in H.
Qed.

Lemma report_paths_distinct :
  papers_path output_dir <> failed_path output_dir
  /\ papers_path output_dir <> report_path output_dir
  /\ failed_path output_dir <> report_path output_dir.
Proof. repeat split; by intros H%path_join_inj. Qed.

(** The loop over the candidates returns; each candidate is counted as a
    success or leaves one failure record. *)
Lemma for_papers_spec papers total i success_count w :
  exists n w',
    for_papers E output_dir total i papers success_count w = (Ok n, w')
    /\ n + length (failed_downloads w')
       = success_count + length papers + length (failed_downloads w).
Proof.
  revert i success_count w.
  induction papers as [|paper papers IH]; intros i success_count w; simpl.
  - exists success_count, w. split; [done | lia].
  - destruct (download_paper_spec E output_dir paper i w)
      as (ok & w1 & Hrun & _ & Htrue & Hfalse & _).
    unfold bind at 1. rewrite Hrun.
    unfold bind at 1, get_failed, bind at 1, print.
    set (w2 := {| files := files w1; failed_downloads := failed_downloads w1;
                  events := events w1; stdout := _ |}).
    destruct (IH (S i) (if ok then success_count + 1 else success_count) w2)
      as (n & w' & Hloop & Hcount).
    exists n, w'. split; [done|]. rewrite Hcount. simpl.
    destruct ok.
    + destruct (Htrue eq_refl) as [-> _]. lia.
    + destruct (Hfalse eq_refl) as (f & -> & _). rewrite length_app. simpl. lia.
Qed.

(** What [save_results] has written when it returns. *)
Lemma save_results_spec papers w w' :
  save_results E output_dir papers w = (Ok tt, w') ->
  failed_downloads w' = failed_downloads w
  /\ files w' !! papers_path output_dir = Some (PapersJson papers)
  /\ (failed_downloads w <> [] ->
      files w' !! failed_path output_dir = Some (FailedJson (failed_downloads w))
      /\ exists date,
           files w' !! report_path output_dir
           = Some (ReportText date (length papers)
                     (Z.of_nat (length papers)
                      - Z.of_nat (length (failed_downloads w)))
                     (length (failed_downloads w)) (failed_downloads w)))
  /\ (failed_downloads w = [] ->
      files w' !! failed_path output_dir = files w !! failed_path output_dir).
Proof.
  destruct report_paths_distinct as (Hpf & Hpr & Hfr).
  unfold save_results, bind, open_write, put_file, print, get_failed, now, ret, emit.
  simpl. intros H.
  repeat case_match; simplify_eq; simpl in *.
  - destruct (failed_downloads w) as [|f fs] eqn:Hl; [done|].
    split; [done|]. split; [|split; [|done]].
    + by rewrite !lookup_insert_ne, lookup_insert_eq by done.
    + intros _. split.
      * by rewrite !lookup_insert_ne, lookup_insert_eq by done.
      * eexists. by rewrite lookup_insert_eq.
  - destruct (failed_downloads w) as [|f fs] eqn:Hl; [|done].
    split; [done|]. split; [|split; [done|]].
    + by rewrite lookup_insert_eq.
    + intros _. by rewrite !lookup_insert_ne by done.
Qed.

(** The course of [run]: the search, and then either nothing more (no
    candidate) or the download loop and the reports. *)
Lemma run_inv keyword venue year w r w' :
  run E output_dir keyword venue year w = (r, w') ->
  exists papers w1,
    search_dblp E keyword venue year
      (print (MsgBanner keyword venue year output_dir) w).2 = (Ok papers, w1)
    /\ files w1 = files w /\ failed_downloads w1 = failed_downloads w
    /\ ((papers = [] /\ r = Ok tt /\ files w' = files w
         /\ failed_downloads w' = failed_downloads w /\ events w' = events w1)
        \/ (papers <> []
            /\ exists n w2 r3 w3,
                 n + length (failed_downloads w2)
                 = length papers + length (failed_downloads w)
                 /\ save_results E output_dir papers w2 = (r3, w3)
                 /\ match r3 with
                    | Raise e => r = Raise e /\ w' = w3
                    | Ok _ =>
                        r = Ok tt /\ files w' = files w3
                        /\ failed_downloads w' = failed_downloads w3
                        /\ events w' = events w3
                        /\ MsgComplete n (length papers) output_dir ∈ stdout w'
                    end)).
Proof.
  unfold run, bind at 1. cbn [print].
  set (w0 := {| files := files w; failed_downloads := failed_downloads w;
                events := events w; stdout := _ |}).
  destruct (search_dblp_spec E keyword venue year w0)
    as (_ & papers & w1 & _ & _ & Hsearch & Hf1 & Hd1 & _).
  unfold bind at 1. rewrite Hsearch. intros H.
  exists papers, w1. split; [done|]. split; [done|]. split; [done|].
  destruct papers as [|paper papers].
  - left. simpl in H. injection H as <- <-. simpl. by rewrite Hf1, Hd1.
  - right. split; [done|].
    set (all := paper :: papers) in *.
    change (negb (nonempty all)) with false in H. cbv beta iota in H.
    unfold bind at 1, print at 1, bind at 1, print at 1 in H.
    cbn [files failed_downloads events stdout] in H.
    match type of H with
    | ?m ?wl = _ => set (w1' := wl) in H
    end.
    destruct (for_papers_spec all (length all) 1 0 w1') as (n & w2 & Hloop & Hcount).
    unfold bind at 1 in H. rewrite Hloop in H.
    assert (Hcount' : n + length (failed_downloads w2)
                      = length all + length (failed_downloads w)).
    { rewrite Hcount. unfold w1'. cbn [failed_downloads]. rewrite Hd1. done. }
    exists n, w2.
    destruct (save_results E output_dir all w2) as [[[]|e] w3] eqn:Hsave.
    + exists (Ok tt), w3. split; [done|]. split; [done|].
      unfold bind at 1 in H. rewrite Hsave in H.
      unfold bind, print, get_failed, ret in H. simpl in H.
      destruct (nonempty (failed_downloads w3)); injection H as <- <-; simpl;
        repeat split; rewrite ?elem_of_app, ?list_elem_of_singleton; auto.
    + exists (Raise e), w3. split; [done|]. split; [done|].
      unfold bind at 1 in H. rewrite Hsave in H. by injection H as <- <-.
Qed.

End RunFacts.

(** ** The claims on the download step and the reports *)

(** C7. When the artifact is already at its path, the download step
    returns success, sends no request, opens no file and leaves the files
    and the failure list as they are. Hence, after a call that downloads
    the artifact, a second call for the same candidate and index returns
    success without a request, and the two calls together send exactly
    one PDF request. *)
Theorem download_skips_existing_artifact (E : env) (output_dir : string)
    (paper : paper) (index : nat) (w : world) :
  let path := pdf_path output_dir (p_title paper) index in
  (is_Some (files w !! path) ->
   exists w',
     download_paper E output_dir paper index w = (Ok true, w')
     /\ events w' = events w /\ files w' = files w
     /\ failed_downloads w' = failed_downloads w)
  /\ (files w !! path = None ->
      forall w1,
        download_paper E output_dir paper index w = (Ok true, w1) ->
        exists w2,
          download_paper E output_dir paper index w1 = (Ok true, w2)
          /\ events w2 = events w1 /\ files w2 = files w1
          /\ pdf_gets (events w2) = pdf_gets (events w) + 1).
Proof.
  intros path.
  assert (Hskip : forall w0, is_Some (files w0 !! path) ->
            exists w', download_paper E output_dir paper index w0 = (Ok true, w')
                       /\ events w' = events w0 /\ files w' = files w0
                       /\ failed_downloads w' = failed_downloads w0).
  { intros w0 Hsome. unfold download_paper, bind, print, path_exists, ret.
    cbn [files]. fold path. rewrite bool_decide_eq_true_2 by done.
    eexists. split; [reflexivity|]. done. }
  split; [apply Hskip|].
  intros Hnone w1 Hrun.
  destruct (download_paper_spec E output_dir paper index w)
    as (ok & w' & Hrun' & _ & Htrue & _ & Hgets).
  rewrite Hrun in Hrun'. injection Hrun' as <- <-.
  destruct (Htrue eq_refl) as [_ Hsome].
  destruct (Hskip w1 Hsome) as (w2 & Hrun2 & Hev & Hfiles & _).
  exists w2. repeat split; [done..|]. rewrite Hev. by apply Hgets.
Qed.

(** C10. A call of the download step appends at most one record to the
    failure list: exactly one when it returns failure, none when it
    returns success. Hence the loop of a run over [n] candidates, started
    with an empty failure list, ends with success count plus failures
    equal to [n], and the success count of the report (total minus
    failures) is the one the loop counted. *)
Theorem failure_list_matches_outcomes (E : env) (output_dir : string) :
  (forall paper index w,
      exists ok w',
        download_paper E output_dir paper index w = (Ok ok, w')
        /\ length (failed_downloads w') <= length (failed_downloads w) + 1
        /\ (ok = false <->
            exists f, failed_downloads w' = failed_downloads w ++ [f])
        /\ (ok = true <-> failed_downloads w' = failed_downloads w))
  /\ (forall papers w,
        failed_downloads w = [] ->
        exists n w',
          for_papers E output_dir (length papers) 1 papers 0 w = (Ok n, w')
          /\ n + length (failed_downloads w') = length papers)
  /\ (forall keyword venue year w w',
        failed_downloads w = [] ->
        run E output_dir keyword venue year w = (Ok tt, w') ->
        forall date total succeeded failed details,
          files w' !! report_path output_dir
            = Some (ReportText date total succeeded failed details) ->
          failed_downloads w' <> [] ->
          MsgComplete (Z.to_nat succeeded) total output_dir ∈ stdout w'
          /\ (succeeded + Z.of_nat failed = Z.of_nat total)%Z
          /\ failed = length (failed_downloads w')).
Proof.
  assert (Hgrow : forall (l : list failure) f, l ++ [f] <> l).
  { intros l f Heq. apply (f_equal length) in Heq. rewrite length_app in Heq.
    simpl in Heq. lia. }
  split; [|split].
  - intros paper index w.
    destruct (download_paper_spec E output_dir paper index w)
      as (ok & w' & Hrun & _ & Htrue & Hfalse & _).
    exists ok, w'. split; [done|]. destruct ok.
    + destruct (Htrue eq_refl) as [Heq _]. rewrite Heq.
      split; [lia|]. split; [|done].
      split; [done|]. intros [f Hf]. symmetry in Hf. by apply Hgrow in Hf.
    + destruct (Hfalse eq_refl) as (f & Heq & _). rewrite Heq, length_app. simpl.
      split; [lia|]. split; [split; [eauto | done]|].
      split; [done|]. intros Hf. by apply Hgrow in Hf.
  - intros papers w Hnew.
    destruct (for_papers_spec E output_dir papers (length papers) 1 0 w)
      as (n & w' & Hrun & Hcount).
    exists n, w'. split; [done|]. rewrite Hcount, Hnew. simpl. lia.
  - intros keyword venue year w w' Hnew Hrun date total succeeded failed details
      Hreport Hfailed.
    apply run_inv in Hrun as (papers & w1 & _ & _ & _ & Hcases).
    destruct Hcases as [(_ & _ & _ & Hd & _) | (_ & n & w2 & r3 & w3 & Hcount & Hsave & Hr)].
    { rewrite Hd in Hfailed. done. }
    destruct r3 as [[]|e]; [|by destruct Hr].
    destruct Hr as (_ & Hf & Hd & _ & Hmsg).
    apply save_results_spec in Hsave as (Hd3 & _ & Hrep & _).
    rewrite Hd, Hd3 in Hfailed. destruct (Hrep Hfailed) as (_ & date' & Hrep').
    rewrite Hf, Hrep' in Hreport. injection Hreport as <- <- <- <- <-.
    rewrite Hnew in Hcount. simpl in Hcount. rewrite Hd, Hd3.
    replace (Z.to_nat _) with n by lia. split; [done|]. split; [lia | done].
Qed.

(** C3, as amended. A run that completes after finding no candidate
    leaves the files as they were. A run that completes after finding
    candidates has written all_papers.json with all of them; if failures
    are recorded it has written failed_downloads.json with them and
    download_report.txt with the total, succeeded (total minus failures)
    and failed counts; if none is recorded, the reporting step has left
    failed_downloads.json as it found it. *)
Theorem run_writes_reports (E : env) (output_dir keyword venue : string)
    (year : Z) (w w' : world) :
  run E output_dir keyword venue year w = (Ok tt, w') ->
  exists papers w1,
    search_dblp E keyword venue year
      (print (MsgBanner keyword venue year output_dir) w).2 = (Ok papers, w1)
    /\ (papers = [] -> files w' = files w)
    /\ (papers <> [] ->
        files w' !! papers_path output_dir = Some (PapersJson papers)
        /\ (failed_downloads w' <> [] ->
            files w' !! failed_path output_dir
              = Some (FailedJson (failed_downloads w'))
            /\ exists date,
                 files w' !! report_path output_dir
                 = Some (ReportText date (length papers)
                           (Z.of_nat (length papers)
                            - Z.of_nat (length (failed_downloads w')))
                           (length (failed_downloads w'))
                           (failed_downloads w')))
        /\ (failed_downloads w' = [] ->
            exists w2 w3,
              save_results E output_dir papers w2 = (Ok tt, w3)
              /\ files w' = files w3
              /\ files w3 !! failed_path output_dir
                 = files w2 !! failed_path output_dir)).
Proof.
  intros Hrun.
  apply run_inv in Hrun as (papers & w1 & Hsearch & _ & _ & Hcases).
  exists papers, w1. split; [done|].
  destruct Hcases as [(-> & _ & Hf & _) | (Hne & n & w2 & r3 & w3 & _ & Hsave & Hr)].
  - split; [done|]. by intros [].
  - split; [by intros ->|]. intros _.
    destruct r3 as [[]|e]; [|by destruct Hr].
    destruct Hr as (_ & Hf & Hd & _).
    pose proof Hsave as (Hd3 & Hpapers & Hrep & Hnone)%save_results_spec.
    rewrite Hf, Hd, Hd3. split; [done|]. split; [done|].
    intros Hempty. exists w2, w3. auto.
Qed.

(** ** The claims on concrete runs *)

Import Scenario.


(** C2. The stream of the response breaks after its first chunk: the
    download step returns failure and records [str(e)], and the chunk
    written so far stays at the target path, where a second call of the
    step takes it for a finished download and returns success without a
    request. *)
Theorem download_error_leaves_partial_file :
  let path := pdf_path "out" (p_title kgc) 1 in
  let first := download_paper env_broken "out" kgc 1 (init ∅) in
  let second := download_paper env_broken "out" kgc 1 first.2 in
  first.1 = Ok false
  /\ failed_downloads first.2
     = [{| f_index := 1; f_title := "Knowledge Graph Completion";
           f_reason := "Connection broken: IncompleteRead";
           f_url := Some "https://example.org/kgc.pdf" |}]
  /\ files first.2 !! path = Some (Bytes "%PDF-1.4 first chunk,")
  /\ second.1 = Ok true
  /\ events second.2 = events first.2
  /\ files second.2 !! path = Some (Bytes "%PDF-1.4 first chunk,").
Proof. repeat split; by vm_compute. Qed.

(** Against C3 as stated: a run that finds no candidate completes and
    has written neither all_papers.json nor download_report.txt. *)
Lemma run_without_candidates_writes_no_report :
  let final := run env_nothing "out" keyword venue 2025 (init ∅) in
  final.1 = Ok tt
  /\ files final.2 !! papers_path "out" = None
  /\ files final.2 !! report_path "out" = None.
Proof. repeat split; by vm_compute. Qed.

(** With every candidate downloaded, the reporting step writes
    all_papers.json and no download_report.txt. *)
Example run_without_failures_writes_no_text_report :
  let final := run env_one "out" keyword venue 2025 (init ∅) in
  final.1 = Ok tt
  /\ failed_downloads final.2 = []
  /\ files final.2 !! papers_path "out" = Some (PapersJson [kgc])
  /\ files final.2 !! report_path "out" = None.
Proof. repeat split; by vm_compute. Qed.

(** A run with one download done and one failed. *)
Lemma run_writes_reports_witness :
  let final := run env_ok "out" keyword venue 2025 (init ∅) in
  final.1 = Ok tt
  /\ files final.2 !! papers_path "out" = Some (PapersJson [kgc; kge])
  /\ files final.2 !! failed_path "out"
     = Some (FailedJson (failed_downloads final.2)).
Proof.
  intros final.
  assert (Hrun : run env_ok "out" keyword venue 2025 (init ∅) = (Ok tt, final.2))
    by (by vm_compute).
  destruct (run_writes_reports env_ok "out" keyword venue 2025 (init ∅) final.2 Hrun)
    as (papers & w1 & Hsearch & _ & Hfound).
  assert (Hpapers : papers = [kgc; kge]).
  { vm_compute in Hsearch. injection Hsearch as <- _. by vm_compute. }
  assert (Hne : papers <> []) by (by rewrite Hpapers).
  destruct (Hfound Hne) as (Hall & Hfailed & _). rewrite Hpapers in Hall.
  split; [by vm_compute|]. split; [exact Hall|].
  apply Hfailed. by vm_compute.
Defined.

(** One candidate link for each strategy. *)
Lemma select_source_order_witness :
  select_source (Some "http://arxiv.org/pdf/2401.00001v1.pdf")
    "https://example.org/kgc.pdf"
  = Chosen "http://arxiv.org/pdf/2401.00001v1.pdf" "arXiv"
  /\ select_source None "https://example.org/kgc.pdf"
     = Chosen "https://example.org/kgc.pdf" "DBLP direct link"
  /\ select_source None "https://doi.org/10.1609/aaai.v38i1.1" = SkippedOjs
  /\ select_source None "https://example.org/paper/1"
     = Chosen "https://example.org/paper/1" "DBLP EE link".
Proof.
  split; [|split; [|split]].
  - destruct (select_source_order env_arxiv_with_pdf "https://example.org/kgc.pdf")
      as (Hresolver & _).
    eapply (Hresolver "Knowledge Graph Completion" [] (init ∅)). by vm_compute.
  - destruct (select_source_order env_ok "https://example.org/kgc.pdf")
      as (_ & Hdirect & _).
    apply Hdirect; [done|]. left. by exists "https://example.org/kgc".
  - destruct (select_source_order env_ok "https://doi.org/10.1609/aaai.v38i1.1")
      as (_ & _ & Hskip & _).
    apply Hskip; [done | |].
    + rewrite <- direct_pdf_link_spec. by vm_compute.
    + right. by exists "https://", "/aaai.v38i1.1".
  - destruct (select_source_order env_ok "https://example.org/paper/1")
      as (_ & _ & _ & Hbroad & _).
    apply Hbroad; [done | |].
    + rewrite <- direct_pdf_link_spec. by vm_compute.
    + rewrite <- paywalled_link_spec. by vm_compute.
Defined.





(** Two hits per year, one of which passes the filter. *)
Lemma search_dblp_filters_and_orders_witness :
  exists w',
    search_dblp env_ok keyword venue 2025 (init ∅) = (Ok ([kgc] ++ [kge]), w').
Proof.
  destruct (proj2 (search_dblp_filters_and_orders env_ok keyword venue 2025 (init ∅))
              [kgc_info; other_venue_info] [other_subject_info; kge_info])
    as (w' & Hrun & _).
  - reflexivity.
  - reflexivity.
  - repeat constructor; by eexists _, _.
  - repeat constructor; by eexists _, _.
  - exists w'. exact Hrun.
Defined.

(** Two calls of the download step in an empty output directory. *)
Lemma download_skips_existing_artifact_witness :
  let first := download_paper env_ok "out" kgc 1 (init ∅) in
  files (init ∅) !! pdf_path "out" (p_title kgc) 1 = None
  /\ first.1 = Ok true
  /\ exists w2,
       download_paper env_ok "out" kgc 1 first.2 = (Ok true, w2)
       /\ events w2 = events first.2 /\ files w2 = files first.2
       /\ pdf_gets (events w2) = pdf_gets (events (init ∅)) + 1.
Proof.
  intros first.
  split; [reflexivity|]. split; [by vm_compute|].
  apply (proj2 (download_skips_existing_artifact env_ok "out" kgc 1 (init ∅)));
    [reflexivity | by vm_compute].
Defined.

(** The loop over two candidates of a new crawler. *)
Lemma failure_list_matches_outcomes_witness :
  failed_downloads (init ∅) = []
  /\ exists n w',
       for_papers env_ok "out" 2 1 [kgc; kge] 0 (init ∅) = (Ok n, w')
       /\ n + length (failed_downloads w') = 2.
Proof.
  split; [reflexivity|].
  apply (proj1 (proj2 (failure_list_matches_outcomes env_ok "out")) [kgc; kge] (init ∅)).
  reflexivity.
Defined.
